(** * Task assignees of the Vikunja API: a shallow embedding

    The Go package [models] keeps the many-to-many relation between tasks and
    users in the table [task_assignees].  This file embeds the part of the
    package that changes that relation -- [TaskAssginee.Create],
    [TaskAssginee.Delete], [Task.updateTaskAssignees],
    [Task.addNewAssigneeByID] and [BulkAssignees.Create] -- together with the
    store and the xorm calls they are written against, and proves what these
    functions do to the table and to the [updated] column of the list that
    owns the task.

    Conventions.
    - [int64] is [Z]; no function here does arithmetic on identifiers.
    - A Go function that returns [err] and works on the global engine [x] is
      a function from the store to a pair of [option error] and the store it
      leaves behind; [None] is Go's [nil] error.  The store is returned on
      the error path as well, because Go does not undo anything by itself.
    - The store is healthy: a statement fails only for a reason that the
      code or xorm gives (an unknown row, a refused access, a delete without
      any condition), never because the connection broke.
    - Pointers to users are values: a [nil] element in a slice of
      [*user.User] is outside the model. *)

From Stdlib Require Import ZArith.
From stdpp Require Import base option list gmap strings.

Local Open Scope Z_scope.

(** ** Rows and structs *)

(** [user.User]; only the identifier is read by the code below. *)
Record User := mkUser {
  u_ID : Z;
  u_Username : string
}.

(** [models.Task]: the identifier, the owning list and the in-memory slice
    of assignees ([Assignees] is no column of the table). *)
Record Task := mkTask {
  t_ID : Z;
  t_ListID : Z;
  t_Assignees : list User
}.

(** [models.List].  The column [updated] is a logical time stamp: every
    update of the column stores the successor of what was there, so two
    values are equal exactly when no update happened in between. *)
Record List := mkList {
  l_ID : Z;
  l_Updated : Z
}.

(** [models.TaskAssginee], a row of [task_assignees].  The column [created]
    is filled by xorm and read by nobody; it is left out. *)
Record TaskAssginee := mkTaskAssginee {
  ta_ID : Z;
  ta_TaskID : Z;
  ta_UserID : Z
}.

(** [models.TaskAssigneeWithUser], one row of the join with [users]. *)
Record TaskAssigneeWithUser := mkTaskAssigneeWithUser {
  wu_TaskID : Z;
  wu_User : User
}.

#[global] Instance User_eq_dec : EqDecision User.
Proof. solve_decision. Defined.
#[global] Instance TaskAssginee_eq_dec : EqDecision TaskAssginee.
Proof. solve_decision. Defined.
#[global] Instance List_eq_dec : EqDecision List.
Proof. solve_decision. Defined.

(** ** Errors *)

Inductive entity := WorkItem | Principal | Container.

Inductive error :=
  (** [ErrUserDoesNotHaveAccessToList{ListID, UserID}] *)
  | ErrUserDoesNotHaveAccessToList (ListID UserID : Z)
  (** a referenced task, user or list does not exist *)
  | ErrNotFound (what : entity) (id : Z)
  (** xorm's [ErrNeedDeletedCond]: a delete without any condition *)
  | ErrNeedDeletedCond.

#[global] Instance entity_eq_dec : EqDecision entity.
Proof. solve_decision. Defined.
#[global] Instance error_eq_dec : EqDecision error.
Proof. solve_decision. Defined.

(** ** The store *)

(** A condition on a row of [task_assignees], as the code builds them with
    [Where], [In], [And] and through the non-zero fields of a bean. *)
Inductive Cond :=
  | CID (id : Z)            (* id = ? *)
  | CTaskID (id : Z)        (* task_id = ? *)
  | CUserID (id : Z)        (* user_id = ? *)
  | CUserIn (ids : list Z). (* user_id IN (...) *)

(** The statements that write. *)
Inductive Stmt :=
  | SInsert (TaskID UserID : Z)  (* INSERT INTO task_assignees *)
  | SDelete (where_ : list Cond) (* DELETE FROM task_assignees WHERE ... *)
  | SUpdateList (ListID : Z).    (* UPDATE list SET updated = ? WHERE id = ? *)

#[global] Instance Cond_eq_dec : EqDecision Cond.
Proof. solve_decision. Defined.
#[global] Instance Stmt_eq_dec : EqDecision Stmt.
Proof. solve_decision. Defined.

(** The database behind the engine [x]: the four tables the code reads or
    writes, the counter behind the [autoincr] key of [task_assignees], the
    access predicate of the lists, and the write statements executed so far
    (oldest first). *)
Record DB := mkDB {
  users : list User;
  tasks : list Task;
  lists : list List;
  task_assignees : list TaskAssginee;
  autoincr : Z;
  can_read : Z → Z → bool;
  statements : list Stmt
}.

Definition holds (c : Cond) (r : TaskAssginee) : bool :=
  match c with
  | CID id => bool_decide (ta_ID r = id)
  | CTaskID id => bool_decide (ta_TaskID r = id)
  | CUserID id => bool_decide (ta_UserID r = id)
  | CUserIn ids => bool_decide (ta_UserID r ∈ ids)
  end.

(** A row matches a [WHERE] clause when every condition holds. *)
Definition matches (cs : list Cond) (r : TaskAssginee) : bool :=
  forallb (λ c, holds c r) cs.

(** [UPDATE list SET updated = now WHERE id = l]. *)
Definition touch (l : Z) (ls : list List) : list List :=
  (λ r, if decide (l_ID r = l) then mkList (l_ID r) (l_Updated r + 1) else r) <$> ls.

(** Executing one write statement. *)
Definition exec (st : Stmt) (db : DB) : DB :=
  match st with
  | SInsert t u =>
      mkDB (users db) (tasks db) (lists db)
           (task_assignees db ++ [mkTaskAssginee (autoincr db) t u])
           (autoincr db + 1) (can_read db) (statements db ++ [st])
  | SDelete cs =>
      mkDB (users db) (tasks db) (lists db)
           (filter (λ r, matches cs r = false) (task_assignees db))
           (autoincr db) (can_read db) (statements db ++ [st])
  | SUpdateList l =>
      mkDB (users db) (tasks db) (touch l (lists db))
           (task_assignees db)
           (autoincr db) (can_read db) (statements db ++ [st])
  end.

(** The first row of a table that satisfies [P]. *)
Definition first_row {A} (P : A → Prop) `{∀ x, Decision (P x)} (l : list A) : option A :=
  snd <$> list_find P l.

(** The time stamp of list [l], if the list exists. *)
Definition marker (db : DB) (l : Z) : option Z :=
  l_Updated <$> first_row (λ r, l_ID r = l) (lists db).

(** ** xorm: the engine [x] and its sessions *)

(** The bean [TaskAssginee{}]. *)
Definition emptyBean : TaskAssginee := mkTaskAssginee 0 0 0.

(** xorm turns the fields of a bean that are not the zero value into
    conditions.  The fast path of [updateTaskAssignees] relies on it: there
    the bean is [TaskAssginee{}] and the only condition is the [Where]. *)
Definition beanConds (bean : TaskAssginee) : list Cond :=
  (if decide (ta_ID bean = 0) then [] else [CID (ta_ID bean)]) ++
  (if decide (ta_TaskID bean = 0) then [] else [CTaskID (ta_TaskID bean)]) ++
  (if decide (ta_UserID bean = 0) then [] else [CUserID (ta_UserID bean)]).

(** [x.Insert(bean)].  The key [id] is [autoincr]; the columns [task_id]
    and [user_id] carry the tag [INDEX], which is no unique index, so the
    insert of a pair that is already stored is accepted. *)
Definition Engine_Insert (bean : TaskAssginee) (db : DB) : option error * DB :=
  (None, exec (SInsert (ta_TaskID bean) (ta_UserID bean)) db).

(** [x.Where(..).Delete(bean)] on the engine: executed at once.  xorm
    refuses a delete that has no condition at all. *)
Definition Engine_Delete (where_ : list Cond) (bean : TaskAssginee) (db : DB)
  : option error * DB :=
  match where_ ++ beanConds bean with
  | [] => (Some ErrNeedDeletedCond, db)
  | cs => (None, exec (SDelete cs) db)
  end.

(** A session.  It is in auto-commit mode until [Begin] is called; in that
    mode every statement is executed at once and [Commit] and [Rollback]
    have nothing to do.  After [Begin] the statements are held back until
    [Commit] and dropped by [Rollback]. *)
Record Session := mkSession {
  isAutoCommit : bool;
  pending : list Stmt
}.

(** [x.NewSession()] *)
Definition NewSession : Session := mkSession true [].

(** [s.Begin()] *)
Definition Session_Begin (s : Session) : Session := mkSession false (pending s).

(** [s.Where(..).Delete(bean)] *)
Definition Session_Delete (s : Session) (where_ : list Cond) (bean : TaskAssginee)
  (db : DB) : option error * Session * DB :=
  match where_ ++ beanConds bean with
  | [] => (Some ErrNeedDeletedCond, s, db)
  | cs =>
      if isAutoCommit s then (None, s, exec (SDelete cs) db)
      else (None, mkSession false (pending s ++ [SDelete cs]), db)
  end.

(** [s.Commit()] *)
Definition Session_Commit (s : Session) (db : DB) : option error * Session * DB :=
  if isAutoCommit s then (None, s, db)
  else (None, mkSession true [], foldl (λ d st, exec st d) db (pending s)).

(** [s.Rollback()] *)
Definition Session_Rollback (s : Session) (db : DB) : option error * Session * DB :=
  if isAutoCommit s then (None, s, db)
  else (None, mkSession true [], db).

(** ** Functions of the package that the sources only call *)

(** Modelled from the spec: [GetTaskByIDSimple] is called but not defined
    in the sources.  It loads the task with the given identifier; a
    referenced work item that does not exist is [NotFound]. *)
Definition GetTaskByIDSimple (taskID : Z) (db : DB) : error + Task :=
  match first_row (λ t, t_ID t = taskID) (tasks db) with
  | Some t => inr t
  | None => inl (ErrNotFound WorkItem taskID)
  end.

(** Modelled from the spec: [List.GetSimpleByID] is called but not defined
    in the sources.  It loads the list with the identifier of the receiver;
    a container that does not exist is [NotFound]. *)
Definition List_GetSimpleByID (l : List) (db : DB) : error + List :=
  match first_row (λ r, l_ID r = l_ID l) (lists db) with
  | Some r => inr r
  | None => inl (ErrNotFound Container (l_ID l))
  end.

(** Modelled from the spec: [GetListSimplByTaskID] is called but not
    defined in the sources.  It resolves the container of a work item;
    an unknown work item or container is [NotFound]. *)
Definition GetListSimplByTaskID (taskID : Z) (db : DB) : error + List :=
  match GetTaskByIDSimple taskID db with
  | inl err => inl err
  | inr t => List_GetSimpleByID (mkList (t_ListID t) 0) db
  end.

(** Modelled from the spec: [user.GetUserByID] is called but not defined in
    the sources.  It loads a principal; an unknown principal is
    [NotFound]. *)
Definition GetUserByID (id : Z) (db : DB) : error + User :=
  match first_row (λ u, u_ID u = id) (users db) with
  | Some u => inr u
  | None => inl (ErrNotFound Principal id)
  end.

(** Modelled from the spec: [List.CanRead] is called but not defined in the
    sources.  It is the access check: whether the principal may read the
    container.  How access is computed is not part of this package; the
    store carries the predicate. *)
Definition List_CanRead (l : List) (u : User) (db : DB) : error + bool :=
  inr (can_read db (l_ID l) (u_ID u)).

(** Modelled from the spec: [updateListLastUpdated] is called but not
    defined in the sources.  It updates the last-modified marker of the
    container with the identifier of its argument. *)
Definition updateListLastUpdated (l : List) (db : DB) : option error * DB :=
  (None, exec (SUpdateList (l_ID l)) db).

(** Modelled from the spec: [updateListByTaskID] is called but not defined
    in the sources.  It updates the last-modified marker of the container
    that owns the work item; an unknown work item is [NotFound]. *)
Definition updateListByTaskID (taskID : Z) (db : DB) : option error * DB :=
  match GetTaskByIDSimple taskID db with
  | inl err => (Some err, db)
  | inr t => updateListLastUpdated (mkList (t_ListID t) 0) db
  end.

(** ** The functions of the sources *)

(** [getRawTaskAssigneesForTasks]: the rows of [task_assignees] for the
    given tasks, joined with [users]; a row whose user does not exist has
    no partner in the join and is not returned. *)
Definition getRawTaskAssigneesForTasks (taskIDs : list Z) (db : DB)
  : list TaskAssigneeWithUser :=
  r ← filter (λ r, ta_TaskID r ∈ taskIDs) (task_assignees db);
  u ← filter (λ u, u_ID u = ta_UserID r) (users db);
  [mkTaskAssigneeWithUser (ta_TaskID r) u].

(** [Task.setTaskAssignees] *)
Definition setTaskAssignees (t : Task) (assignees : list User) : Task :=
  if bool_decide (length assignees = 0%nat) then mkTask (t_ID t) (t_ListID t) []
  else mkTask (t_ID t) (t_ListID t) assignees.

(** [Task.addNewAssigneeByID] *)
Definition addNewAssigneeByID (t : Task) (newAssigneeID : Z) (lst : List) (db : DB)
  : option error * DB :=
  match GetUserByID newAssigneeID db with
  | inl err => (Some err, db)
  | inr newAssignee =>
      match List_CanRead lst newAssignee db with
      | inl err => (Some err, db)
      | inr canRead =>
          if negb canRead
          then (Some (ErrUserDoesNotHaveAccessToList (l_ID lst) newAssigneeID), db)
          else
            match Engine_Insert (mkTaskAssginee 0 (t_ID t) newAssigneeID) db with
            | (Some err, db1) => (Some err, db1)
            | (None, db1) => updateListLastUpdated (mkList (t_ListID t) 0) db1
            end
      end
  end.

(** [TaskAssginee.Create]: the task handed to [addNewAssigneeByID] is
    [&Task{ID: la.TaskID}], whose [ListID] is zero. *)
Definition TaskAssginee_Create (la : TaskAssginee) (db : DB) : option error * DB :=
  match GetListSimplByTaskID (ta_TaskID la) db with
  | inl err => (Some err, db)
  | inr lst => addNewAssigneeByID (mkTask (ta_TaskID la) 0 []) (ta_UserID la) lst db
  end.

(** [TaskAssginee.Delete] *)
Definition TaskAssginee_Delete (la : TaskAssginee) (db : DB) : option error * DB :=
  match Engine_Delete [] (mkTaskAssginee 0 (ta_TaskID la) (ta_UserID la)) db with
  | (Some err, db1) => (Some err, db1)
  | (None, db1) => updateListByTaskID (ta_TaskID la) db1
  end.

(** The hash map of the new assignees, keyed by identifier. *)
Definition newAssigneesMap (assignees : list User) : gmap Z User :=
  foldl (λ m newAssignee, <[u_ID newAssignee := newAssignee]> m) ∅ assignees.

(** The loop over the old assignees: those that are not among the new ones
    go to [assigneesToDelete]; all of them go to the hash map
    [oldAssignees]. *)
Definition oldLoop (newAssignees : gmap Z User) (old : list User)
  : list Z * gmap Z User :=
  foldl (λ acc oldAssignee,
           let found := bool_decide (is_Some (newAssignees !! u_ID oldAssignee)) in
           (if found then acc.1 else acc.1 ++ [u_ID oldAssignee],
            <[u_ID oldAssignee := oldAssignee]> acc.2))
        ([], ∅) old.

(** The loop over the new assignees: a user who is in [oldAssignees] is
    skipped, every other one is added; the first error ends the loop. *)
Fixpoint addLoop (t : Task) (lst : List) (oldAssignees : gmap Z User)
  (assignees : list User) (db : DB) : option error * DB :=
  match assignees with
  | [] => (None, db)
  | u :: rest =>
      if bool_decide (is_Some (oldAssignees !! u_ID u))
      then addLoop t lst oldAssignees rest db
      else
        match addNewAssigneeByID t (u_ID u) lst db with
        | (Some err, db1) => (Some err, db1)
        | (None, db1) => addLoop t lst oldAssignees rest db1
        end
  end.

(** [Task.updateTaskAssignees].  The receiver and the session are pointers
    in Go; their new values are returned next to the error and the store. *)
Definition updateTaskAssignees (t : Task) (s : Session) (assignees : list User) (db : DB)
  : option error * Task * Session * DB :=
  let currentAssignees := getRawTaskAssigneesForTasks [t_ID t] db in
  let t := mkTask (t_ID t) (t_ListID t) (wu_User <$> currentAssignees) in
  if bool_decide (length assignees = 0%nat) && bool_decide (0 < length (t_Assignees t))%nat
  then
    let '(err, s, db) := Session_Delete s [CTaskID (t_ID t)] emptyBean db in
    (err, setTaskAssignees t assignees, s, db)
  else if bool_decide (length assignees = 0%nat) && bool_decide (length (t_Assignees t) = 0%nat)
  then (None, t, s, db)
  else
    let newAssignees := newAssigneesMap assignees in
    let '(assigneesToDelete, oldAssignees) := oldLoop newAssignees (t_Assignees t) in
    let '(err, s, db) :=
      if bool_decide (0 < length assigneesToDelete)%nat
      then Session_Delete s [CUserIn assigneesToDelete; CTaskID (t_ID t)] emptyBean db
      else (None, s, db) in
    match err with
    | Some err => (Some err, t, s, db)
    | None =>
        match List_GetSimpleByID (mkList (t_ListID t) 0) db with
        | inl err => (Some err, t, s, db)
        | inr lst =>
            match addLoop t lst oldAssignees assignees db with
            | (Some err, db) => (Some err, t, s, db)
            | (None, db) =>
                let t := setTaskAssignees t assignees in
                let '(err, db) := updateListLastUpdated (mkList (t_ListID t) 0) db in
                (err, t, s, db)
            end
        end
    end.

(** [models.BulkAssignees] *)
Record BulkAssignees := mkBulkAssignees {
  ba_Assignees : list User;
  ba_TaskID : Z
}.

(** [BulkAssignees.Create].  The session comes from [x.NewSession()] and
    [Begin] is not called on it. *)
Definition BulkAssignees_Create (ba : BulkAssignees) (db : DB) : option error * DB :=
  let s := NewSession in
  match GetTaskByIDSimple (ba_TaskID ba) db with
  | inl err => (Some err, db)
  | inr task =>
      let assignees := getRawTaskAssigneesForTasks [t_ID task] db in
      let task := mkTask (t_ID task) (t_ListID task)
                         (t_Assignees task ++ (wu_User <$> assignees)) in
      match updateTaskAssignees task s (ba_Assignees ba) db with
      | (Some err, _, s, db) =>
          let '(_, _, db) := Session_Rollback s db in (Some err, db)
      | (None, _, s, db) =>
          let '(err, _, db) := Session_Commit s db in (err, db)
      end
  end.

(** ** Views of the store used in the statements *)

(** The identifiers of the users currently assigned to a task, as the code
    loads them. *)
Definition CurrentSet (db : DB) (taskID : Z) : list Z :=
  (λ a, u_ID (wu_User a)) <$> getRawTaskAssigneesForTasks [taskID] db.

(** The statements executed between two states of the store. *)
Definition written (db db' : DB) : list Stmt :=
  drop (length (statements db)) (statements db').

(** How often the marker of list [l] is updated by a run of statements. *)
Definition marker_updates (l : Z) (sts : list Stmt) : nat :=
  length (filter (λ st, st = SUpdateList l) sts).

(** ** The delta of a bulk replace *)

(** [toAdd = desired \ current] and [toRemove = current \ desired], on the
    lists of identifiers (membership decides; order and repetitions are
    those of the list that is filtered). *)
Definition toAdd (current desired : list Z) : list Z :=
  filter (λ k, k ∉ current) desired.

Definition toRemove (current desired : list Z) : list Z :=
  filter (λ k, k ∉ desired) current.

(** The principals for which a run of statements inserts a row of task
    [t]. *)
Definition inserted (t : Z) (sts : list Stmt) : list Z :=
  sts ≫= λ st, match st with
               | SInsert t' k => if decide (t' = t) then [k] else []
               | _ => []
               end.

(** ** What an addition checks and what it writes *)

(** The checks of [addNewAssigneeByID], up to the insert: the error they
    end with, or [None] when the user exists and may read the list. *)
Definition canAssign (db : DB) (lst : List) (k : Z) : option error :=
  match GetUserByID k db with
  | inl err => Some err
  | inr u =>
      if can_read db (l_ID lst) (u_ID u) then None
      else Some (ErrUserDoesNotHaveAccessToList (l_ID lst) k)
  end.

(** The two statements of a successful [addNewAssigneeByID]. *)
Definition assign (tid lid k : Z) (db : DB) : DB :=
  exec (SUpdateList lid) (exec (SInsert tid k) db).

(** [addLoop] on the identifiers that are not skipped. *)
Fixpoint addRun (tid lid : Z) (lst : List) (ids : list Z) (db : DB)
  : option error * DB :=
  match ids with
  | [] => (None, db)
  | k :: rest =>
      match canAssign db lst k with
      | Some err => (Some err, db)
      | None => addRun tid lid lst rest (assign tid lid k db)
      end
  end.

(** The store after the additions [done], one after the other. *)
Definition assignAll (tid lid : Z) (done : list Z) (db : DB) : DB :=
  foldl (λ d k, assign tid lid k d) db done.

(** ** The effect of a bulk replace on the store *)

(** The delete of the general path: one statement for all of [del], and no
    statement when [del] is empty. *)
Definition removeAll (tid : Z) (del : list Z) (db : DB) : DB :=
  match del with
  | [] => db
  | _ => exec (SDelete [CUserIn del; CTaskID tid]) db
  end.

(** What [updateTaskAssignees] does to the store when the session is in
    auto-commit mode, told in terms of the identifiers: the current set
    [cur], the desired identifiers [des] and the delta between them. *)
Definition reconcile (tid lid : Z) (des : list Z) (db : DB) : option error * DB :=
  let cur := CurrentSet db tid in
  match des, cur with
  | [], _ :: _ => (None, exec (SDelete [CTaskID tid]) db)
  | [], [] => (None, db)
  | _ :: _, _ =>
      let db1 := removeAll tid (toRemove cur des) db in
      match List_GetSimpleByID (mkList lid 0) db1 with
      | inl err => (Some err, db1)
      | inr lst =>
          match addRun tid lid lst (toAdd cur des) db1 with
          | (Some err, db2) => (Some err, db2)
          | (None, db2) => (None, exec (SUpdateList lid) db2)
          end
      end
  end.

(** ** Two statements of the specification, as they are written *)

(** The claim about the marker as the specification has it: a successful
    bulk replace updates the marker of the list exactly once when the delta
    is not empty and not at all when it is empty. *)
Definition marker_once_per_delta : Prop :=
  ∀ ba db db' t,
    BulkAssignees_Create ba db = (None, db') →
    GetTaskByIDSimple (ba_TaskID ba) db = inr t →
    let cur := CurrentSet db (t_ID t) in
    let des := u_ID <$> ba_Assignees ba in
    marker_updates (t_ListID t) (written db db') =
    if decide (toAdd cur des = [] ∧ toRemove cur des = []) then 0%nat else 1%nat.

(** The claim of idempotence as the specification has it: the second of
    two bulk replaces in a row changes neither the assignment set nor the
    marker of any list. *)
Definition second_call_changes_nothing : Prop :=
  ∀ ba db,
    let db1 := (BulkAssignees_Create ba db).2 in
    let db2 := (BulkAssignees_Create ba db1).2 in
    (∀ k, k ∈ CurrentSet db2 (ba_TaskID ba) ↔ k ∈ CurrentSet db1 (ba_TaskID ba)) ∧
    (∀ l, marker db2 l = marker db1 l).


(** ** A store to run the functions on *)

Definition alice : User := mkUser 1 "alice".
Definition bob : User := mkUser 2 "bob".
Definition carol : User := mkUser 3 "carol".
Definition dave : User := mkUser 4 "dave".

(** Task 10 lives in list 100; alice, bob and carol may read the list, dave
    may not.  [rows] are the assignments, numbered from 1. *)
Definition store (rows : list (Z * Z)) : DB :=
  mkDB [alice; bob; carol; dave]
       [mkTask 10 100 []; mkTask 11 100 []]
       [mkList 100 0]
       (imap (λ i p, mkTaskAssginee (Z.of_nat i + 1) p.1 p.2) rows)
       (Z.of_nat (length rows) + 1)
       (λ l u, bool_decide (l = 100 ∧ u ≠ 4))
       [].

(** ** Listing the assignees of a task *)

(** The errors of [TaskAssginee.ReadAll]: [ErrGenericForbidden{}], or the
    error of one of the two lookups before it. *)
Inductive read_error :=
  | ErrGenericForbidden
  | ErrLookup (err : error).

Section ReadAll.
(** [getLimitFromPageIndex] is called but not defined in the sources and the
    specification leaves the parsing of the page parameters out; it is a
    parameter here.  So is the [LIKE] of the database, whose wildcards and
    collation are not the business of the package: [sqlLike v p] says
    whether the value [v] matches the pattern [p]. *)
Variable getLimitFromPageIndex : Z → Z → Z * Z.
Variable sqlLike : string → string → bool.

(** The query of [ReadAll], before any limit: the users joined to the rows
    of the task whose name is like [%search%]. *)
Definition assigneesLike (taskID : Z) (search : string) (db : DB) : list User :=
  r ← filter (λ r, ta_TaskID r = taskID) (task_assignees db);
  filter (λ u, u_ID u = ta_UserID r ∧ sqlLike (u_Username u) ("%" +:+ search +:+ "%") = true)
         (users db).

(** [query.Limit(limit, start)]: [LIMIT limit OFFSET start].  The offset is
    not negative in any call the code can make with [limit > 0]. *)
Definition Limit {A} (limit start : Z) (l : list A) : list A :=
  take (Z.to_nat limit) (drop (Z.to_nat start) l).

(** [TaskAssginee.ReadAll]: the page, its length and the number of all
    matches.  The caller [a] is a [web.Auth]; a user is one. *)
Definition TaskAssginee_ReadAll (la : TaskAssginee) (a : User) (search : string)
  (page perPage : Z) (db : DB) : read_error + (list User * Z * Z) :=
  match GetListSimplByTaskID (ta_TaskID la) db with
  | inl err => inl (ErrLookup err)
  | inr task =>
      match List_CanRead task a db with
      | inl err => inl (ErrLookup err)
      | inr can =>
          if negb can then inl ErrGenericForbidden
          else
            let '(limit, start) := getLimitFromPageIndex page perPage in
            let query := assigneesLike (ta_TaskID la) search db in
            let taskAssignees :=
              if bool_decide (0 < limit) then Limit limit start query else query in
            let numberOfTotalItems := Z.of_nat (length query) in
            inr (taskAssignees, Z.of_nat (length taskAssignees), numberOfTotalItems)
      end
  end.
End ReadAll.

(** ** The teams of a namespace *)

(** [models.Team] and the row of [team_namespaces] that shares a team with
    a namespace. *)
Record Team := mkTeam {
  team_ID : Z;
  team_Name : string
}.

Record TeamNamespace := mkTeamNamespace {
  tn_ID : Z;
  tn_TeamID : Z;
  tn_NamespaceID : Z
}.

#[global] Instance Team_eq_dec : EqDecision Team.
Proof. solve_decision. Defined.

(** The two tables that [TeamNamespace.ReadAll] reads. *)
Record TeamStore := mkTeamStore {
  teams : list Team;
  team_namespaces : list TeamNamespace
}.

(** The errors of [TeamNamespace.ReadAll]:
    [ErrNeedToHaveNamespaceReadAccess{NamespaceID, UserID}], or the error
    of [GetNamespaceByID]. *)
Inductive namespace_error (E : Type) :=
  | ErrNeedToHaveNamespaceReadAccess (NamespaceID UserID : Z)
  | ErrGetNamespace (err : E).
Arguments ErrNeedToHaveNamespaceReadAccess {E} NamespaceID UserID.
Arguments ErrGetNamespace {E} err.

Section TeamNamespace_ReadAll.
(** [GetNamespaceByID] and [Namespace.CanRead] are called but not defined in
    the sources, nor is the struct [Namespace]; they are parameters. *)
Variables (Namespace E : Type).
Variable GetNamespaceByID : Z → E + Namespace.
Variable Namespace_CanRead : Namespace → User → bool.

(** [TeamNamespace.ReadAll]: [teams] joined with [team_namespaces] on the
    team, for the namespace of the receiver. *)
Definition TeamNamespace_ReadAll (tn : TeamNamespace) (user : User) (st : TeamStore)
  : namespace_error E + list Team :=
  match GetNamespaceByID (tn_NamespaceID tn) with
  | inl err => inl (ErrGetNamespace err)
  | inr n =>
      if negb (Namespace_CanRead n user)
      then inl (ErrNeedToHaveNamespaceReadAccess (tn_NamespaceID tn) (u_ID user))
      else
        inr (t ← teams st;
             l ← filter (λ l, tn_TeamID l = team_ID t ∧
                              tn_NamespaceID l = tn_NamespaceID tn)
                        (team_namespaces st);
             [t])
  end.
End TeamNamespace_ReadAll.

(** ** The pairs of the table *)

(** The (task, user) pairs of the rows, with repetitions. *)
Definition pairs (db : DB) : list (Z * Z) :=
  (λ r, (ta_TaskID r, ta_UserID r)) <$> task_assignees db.

(** ** Basic facts about the store *)

(** From an equation between two results, the equation between their
    stores, without unfolding the store on the way. *)
Ltac store_of H := apply (f_equal snd) in H; cbn [snd] in H; subst.

Section store_facts.
Implicit Types (db : DB) (st : Stmt) (sts : list Stmt).

Lemma exec_users st db : users (exec st db) = users db.
Proof. by destruct st. Qed.

Lemma exec_tasks st db : tasks (exec st db) = tasks db.
Proof. by destruct st. Qed.

Lemma exec_can_read st db : can_read (exec st db) = can_read db.
Proof. by destruct st. Qed.

Lemma exec_statements st db : statements (exec st db) = statements db ++ [st].
Proof. by destruct st. Qed.

Lemma written_refl db : written db db = [].
Proof. unfold written. by rewrite drop_all. Qed.

Lemma written_app db db' sts :
  statements db' = statements db ++ sts → written db db' = sts.
Proof. intros Hsts. unfold written. by rewrite Hsts, drop_app_length. Qed.

Lemma first_row_Some {A} (P : A → Prop) `{∀ x, Decision (P x)} (l : list A) x :
  first_row P l = Some x → x ∈ l ∧ P x.
Proof.
  unfold first_row. destruct (list_find P l) as [[i y]|] eqn:E; [|done].
  intros [= <-]. apply list_find_Some in E as (Hi & HP & _).
  split; [by eapply list_elem_of_lookup_2 | done].
Qed.

Lemma first_row_None {A} (P : A → Prop) `{∀ x, Decision (P x)} (l : list A) :
  first_row P l = None ↔ Forall (λ x, ¬ P x) l.
Proof.
  unfold first_row. rewrite fmap_None. by rewrite list_find_None.
Qed.

(** [touch] keeps the identifiers, so it keeps which lists exist, and it
    adds one to the marker of the list it names. *)
Lemma first_row_touch l l' ls :
  first_row (λ r, l_ID r = l) (touch l' ls) =
  (λ r, if decide (l_ID r = l') then mkList (l_ID r) (l_Updated r + 1) else r)
    <$> first_row (λ r, l_ID r = l) ls.
Proof.
  induction ls as [|r ls IH]; [done|].
  unfold first_row, touch in *. cbn [fmap list_fmap list_find].
  destruct (decide (l_ID r = l')) as [Hr|Hr]; cbn [l_ID].
  - destruct (decide (l_ID r = l)); cbn; [by rewrite decide_True|].
    rewrite <-!option_fmap_compose in *.
    etrans; [|etrans; [exact IH|]];
      by destruct (list_find _ _) as [[??]|].
  - destruct (decide (l_ID r = l)); cbn; [by rewrite decide_False|].
    rewrite <-!option_fmap_compose in *.
    etrans; [|etrans; [exact IH|]];
      by destruct (list_find _ _) as [[??]|].
Qed.

Lemma marker_exec_touch db l :
  marker (exec (SUpdateList l) db) l = (λ v, v + 1) <$> marker db l.
Proof.
  unfold marker. cbn [exec lists]. rewrite first_row_touch.
  destruct (first_row _ (lists db)) as [r|] eqn:E; [|done].
  apply first_row_Some in E as [_ E]. cbn. by rewrite decide_True.
Qed.

Lemma marker_exec_other db st l :
  st ≠ SUpdateList l → marker (exec st db) l = marker db l.
Proof.
  intros Hst. destruct st as [| |l']; [done..|].
  unfold marker. cbn [exec lists]. rewrite first_row_touch.
  destruct (first_row _ (lists db)) as [r|] eqn:E; [|done].
  apply first_row_Some in E as [_ E]. cbn.
  rewrite decide_False; [done|]. congruence.
Qed.

Lemma List_GetSimpleByID_exec st l db :
  is_Some (first_row (λ r, l_ID r = l) (lists (exec st db))) ↔
  is_Some (first_row (λ r, l_ID r = l) (lists db)).
Proof.
  destruct st as [| |l']; [done..|]. cbn [exec lists].
  rewrite first_row_touch. by rewrite fmap_is_Some.
Qed.

(** Membership in the current set: a row for the pair and a user to join
    it with. *)
Lemma elem_of_CurrentSet db t k :
  k ∈ CurrentSet db t ↔
  (∃ r, r ∈ task_assignees db ∧ ta_TaskID r = t ∧ ta_UserID r = k) ∧
  (∃ u, u ∈ users db ∧ u_ID u = k).
Proof.
  unfold CurrentSet, getRawTaskAssigneesForTasks.
  rewrite list_elem_of_fmap. split.
  - intros (a & -> & Ha).
    apply list_elem_of_bind in Ha as (r & Ha & Hr).
    apply list_elem_of_bind in Ha as (u & Ha & Hu).
    apply list_elem_of_singleton in Ha as ->. cbn.
    apply list_elem_of_filter in Hr as [Ht Hr].
    apply list_elem_of_filter in Hu as [Hk Hu].
    apply list_elem_of_singleton in Ht.
    split; [exists r | exists u]; by rewrite ?Hk.
  - intros [(r & Hr & Ht & Hk) (u & Hu & Hku)].
    exists (mkTaskAssigneeWithUser (ta_TaskID r) u). split; [done|].
    apply list_elem_of_bind. exists r. split.
    + apply list_elem_of_bind. exists u. split; [by apply list_elem_of_singleton|].
      apply list_elem_of_filter. split; [congruence | done].
    + apply list_elem_of_filter. split; [|done].
      apply list_elem_of_singleton. done.
Qed.

Lemma wu_User_CurrentSet db t :
  u_ID <$> (wu_User <$> getRawTaskAssigneesForTasks [t] db) = CurrentSet db t.
Proof. unfold CurrentSet. by rewrite <-list_fmap_compose. Qed.
End store_facts.

Section additions.
Implicit Types (db : DB) (t : Task) (lst : List) (k : Z).

Lemma addNewAssigneeByID_canAssign t k lst db :
  addNewAssigneeByID t k lst db =
  match canAssign db lst k with
  | Some err => (Some err, db)
  | None => (None, assign (t_ID t) (t_ListID t) k db)
  end.
Proof.
  unfold addNewAssigneeByID, canAssign, List_CanRead.
  destruct (GetUserByID k db) as [e|u]; [done|].
  by destruct (can_read db (l_ID lst) (u_ID u)).
Qed.

Lemma canAssign_frame db db' lst k :
  users db' = users db → can_read db' = can_read db →
  canAssign db' lst k = canAssign db lst k.
Proof. unfold canAssign, GetUserByID. by intros -> ->. Qed.

Lemma canAssign_exec st db lst k : canAssign (exec st db) lst k = canAssign db lst k.
Proof. apply canAssign_frame; [apply exec_users | apply exec_can_read]. Qed.

Lemma canAssign_assign tid lid k' db lst k :
  canAssign (assign tid lid k' db) lst k = canAssign db lst k.
Proof. unfold assign. by rewrite !canAssign_exec. Qed.

(** A user who passes the access check exists. *)
Lemma canAssign_None_user db lst k :
  canAssign db lst k = None → ∃ u, u ∈ users db ∧ u_ID u = k.
Proof.
  unfold canAssign, GetUserByID.
  destruct (first_row _ (users db)) as [u|] eqn:E; [|done].
  intros _. exists u. by apply first_row_Some in E.
Qed.

Lemma addLoop_addRun t lst (old : gmap Z User) (des : list User) db :
  addLoop t lst old des db =
  addRun (t_ID t) (t_ListID t) lst
         (filter (λ k, old !! k = None) (u_ID <$> des)) db.
Proof.
  revert db. induction des as [|u des IH]; intros db; [done|].
  cbn [addLoop fmap list_fmap]. rewrite filter_cons.
  destruct (old !! u_ID u) as [v|] eqn:E.
  - rewrite bool_decide_true by eauto. rewrite decide_False by done. apply IH.
  - rewrite bool_decide_false by (by intros [? ?]).
    rewrite decide_True by done. cbn [addRun].
    rewrite addNewAssigneeByID_canAssign.
    destruct (canAssign db lst (u_ID u)); [done|]. apply IH.
Qed.

Lemma assignAll_cons tid lid k done db :
  assignAll tid lid (k :: done) db = assignAll tid lid done (assign tid lid k db).
Proof. done. Qed.

(** A run of additions stops at the first identifier that does not pass
    the access check; the identifiers before it have been added. *)
Lemma addRun_inv tid lid lst ids db r db' :
  addRun tid lid lst ids db = (r, db') →
  ∃ done rest,
    ids = done ++ rest ∧ db' = assignAll tid lid done db ∧
    Forall (λ k, canAssign db lst k = None) done ∧
    match r with
    | None => rest = []
    | Some err => ∃ k rest', rest = k :: rest' ∧ canAssign db lst k = Some err
    end.
Proof.
  revert db. induction ids as [|k ids IH]; intros db; cbn [addRun].
  - intros [= <- <-]. by exists [], [].
  - destruct (canAssign db lst k) as [e|] eqn:E.
    + intros [= <- <-]. exists [], (k :: ids). repeat split; eauto.
    + intros Hrun. apply IH in Hrun as (done & rest & -> & -> & Hdone & Hr).
      exists (k :: done), rest. repeat split; [|].
      * constructor; [done|]. eapply Forall_impl; [exact Hdone|].
        intros k'. cbv beta. by rewrite canAssign_assign.
      * destruct r as [e|]; [|done].
        destruct Hr as (k' & rest' & -> & Hk'). rewrite canAssign_assign in Hk'. eauto.
Qed.

Lemma assignAll_users tid lid done db : users (assignAll tid lid done db) = users db.
Proof.
  revert db. induction done as [|k done IH]; intros db; [done|].
  rewrite assignAll_cons, IH. unfold assign. by rewrite !exec_users.
Qed.

Lemma assignAll_tasks tid lid done db : tasks (assignAll tid lid done db) = tasks db.
Proof.
  revert db. induction done as [|k done IH]; intros db; [done|].
  rewrite assignAll_cons, IH. unfold assign. by rewrite !exec_tasks.
Qed.

Lemma assignAll_can_read tid lid done db :
  can_read (assignAll tid lid done db) = can_read db.
Proof.
  revert db. induction done as [|k done IH]; intros db; [done|].
  rewrite assignAll_cons, IH. unfold assign. by rewrite !exec_can_read.
Qed.

Lemma assignAll_statements tid lid done db :
  statements (assignAll tid lid done db) =
  statements db ++ (done ≫= λ k, [SInsert tid k; SUpdateList lid]).
Proof.
  revert db. induction done as [|k done IH]; intros db.
  - cbn. by rewrite app_nil_r.
  - rewrite assignAll_cons, IH. unfold assign. rewrite !exec_statements.
    cbn. by rewrite <-!(assoc_L (++)).
Qed.

(** The additions append their rows to the table, in order. *)
Lemma assignAll_task_assignees tid lid done db :
  ∃ news,
    task_assignees (assignAll tid lid done db) = task_assignees db ++ news ∧
    ta_UserID <$> news = done ∧ Forall (λ r, ta_TaskID r = tid) news.
Proof.
  revert db. induction done as [|k done IH]; intros db.
  - exists []. cbn. by rewrite app_nil_r.
  - destruct (IH (assign tid lid k db)) as (news & Hnews & <- & Htid).
    exists (mkTaskAssginee (autoincr db) tid k :: news).
    rewrite assignAll_cons, Hnews. cbn. rewrite <-(assoc_L (++)).
    split; [done|]. split; [done|]. by constructor.
Qed.

Lemma assignAll_marker tid lid done db :
  marker (assignAll tid lid done db) lid =
  (λ v, v + Z.of_nat (length done)) <$> marker db lid.
Proof.
  revert db. induction done as [|k done IH]; intros db.
  - cbn. destruct (marker db lid); cbn; f_equal; lia.
  - rewrite assignAll_cons, IH. unfold assign.
    rewrite marker_exec_touch, marker_exec_other by done.
    destruct (marker db lid); cbn [fmap option_fmap option_map]; f_equal.
    cbn [length]. lia.
Qed.

Lemma assignAll_lists_exist tid lid done db l :
  is_Some (first_row (λ r, l_ID r = l) (lists (assignAll tid lid done db))) ↔
  is_Some (first_row (λ r, l_ID r = l) (lists db)).
Proof.
  revert db. induction done as [|k done IH]; intros db; [done|].
  rewrite assignAll_cons, IH. unfold assign.
  by rewrite !List_GetSimpleByID_exec.
Qed.
End additions.

(** ** The two hash maps of [updateTaskAssignees] *)

Section hash_maps.
Implicit Types (m : gmap Z User) (k : Z).

Lemma insert_all_is_Some m (l : list User) k :
  is_Some (foldl (λ m u, <[u_ID u := u]> m) m l !! k) ↔
  is_Some (m !! k) ∨ k ∈ u_ID <$> l.
Proof.
  revert m. induction l as [|u l IH]; intros m; cbn [foldl fmap list_fmap].
  - rewrite elem_of_nil. tauto.
  - rewrite IH, elem_of_cons, lookup_insert_is_Some. split.
    + intros [[?|[??]]|?]; auto.
    + destruct (decide (u_ID u = k)); intros [?|[?|?]]; auto.
Qed.

Lemma newAssigneesMap_None (l : list User) k :
  newAssigneesMap l !! k = None ↔ k ∉ u_ID <$> l.
Proof.
  rewrite eq_None_not_Some. unfold newAssigneesMap.
  rewrite insert_all_is_Some, lookup_empty, is_Some_alt. tauto.
Qed.

Lemma oldLoop_acc m (old : list User) (del : list Z) (om : gmap Z User) :
  foldl (λ acc oldAssignee,
           let found := bool_decide (is_Some (m !! u_ID oldAssignee)) in
           (if found then acc.1 else acc.1 ++ [u_ID oldAssignee],
            <[u_ID oldAssignee := oldAssignee]> acc.2))
        (del, om) old =
  (del ++ filter (λ k, m !! k = None) (u_ID <$> old),
   foldl (λ m u, <[u_ID u := u]> m) om old).
Proof.
  revert del om. induction old as [|u old IH]; intros del om.
  - cbn. by rewrite app_nil_r.
  - cbn [foldl fmap list_fmap]. rewrite IH, filter_cons. cbn [fst snd].
    destruct (m !! u_ID u) as [v|] eqn:E.
    + rewrite bool_decide_true by eauto. by rewrite decide_False.
    + rewrite bool_decide_false by (by intros [? ?]).
      rewrite decide_True by done. by rewrite <-(assoc_L (++)).
Qed.

(** The map [oldAssignees] is built like [newAssignees], from the old
    assignees. *)
Lemma oldLoop_eq m (old : list User) :
  oldLoop m old =
  (filter (λ k, m !! k = None) (u_ID <$> old), newAssigneesMap old).
Proof. unfold oldLoop. by rewrite oldLoop_acc. Qed.
End hash_maps.

Section bulk_unfold.
Implicit Types (db : DB) (t : Task) (s : Session).

Lemma beanConds_emptyBean : beanConds emptyBean = [].
Proof. done. Qed.

Lemma updateTaskAssignees_reconcile t s (assignees : list User) db :
  isAutoCommit s = true →
  ∃ t', updateTaskAssignees t s assignees db =
        ((reconcile (t_ID t) (t_ListID t) (u_ID <$> assignees) db).1, t', s,
         (reconcile (t_ID t) (t_ListID t) (u_ID <$> assignees) db).2).
Proof.
  intros Hs. unfold updateTaskAssignees, reconcile, removeAll.
  cbn [t_ID t_ListID t_Assignees].
  rewrite <-(wu_User_CurrentSet db (t_ID t)).
  set (cur := wu_User <$> getRawTaskAssigneesForTasks [t_ID t] db).
  destruct assignees as [|u des].
  - destruct cur as [|c cur]; cbn.
    + eauto.
    + unfold Session_Delete. cbn. rewrite Hs. eauto.
  - cbn [length fmap list_fmap]. rewrite !bool_decide_false by done.
    cbn [andb]. rewrite oldLoop_eq.
    fold (u_ID <$> des). fold (u_ID <$> cur).
    change (u_ID u :: (u_ID <$> des)) with (u_ID <$> (u :: des)).
    set (del := filter _ (u_ID <$> cur)).
    assert (del = toRemove (u_ID <$> cur) (u_ID <$> (u :: des))) as Hdel.
    { apply list_filter_iff. intros k. apply newAssigneesMap_None. }
    assert (filter (λ k, newAssigneesMap cur !! k = None) (u_ID <$> (u :: des))
            = toAdd (u_ID <$> cur) (u_ID <$> (u :: des))) as Hadd.
    { apply list_filter_iff. intros k. apply newAssigneesMap_None. }
    rewrite <-Hdel. clearbody del.
    destruct del as [|d del].
    + cbn [length]. rewrite bool_decide_false by lia.
      destruct (List_GetSimpleByID _ db) as [e|lst]; [by eauto|].
      rewrite addLoop_addRun. cbn [t_ID t_ListID]. rewrite Hadd.
      destruct (addRun _ _ _ _ db) as [[e|] db2]; by eauto.
    + cbn [length]. rewrite bool_decide_true by lia.
      unfold Session_Delete. rewrite beanConds_emptyBean. cbn [app]. rewrite Hs.
      destruct (List_GetSimpleByID _ _) as [e|lst]; [by eauto|].
      rewrite addLoop_addRun. cbn [t_ID t_ListID]. rewrite Hadd.
      destruct (addRun _ _ _ _ _) as [[e|] db2]; by eauto.
Qed.

Lemma BulkAssignees_Create_reconcile ba db :
  BulkAssignees_Create ba db =
  match GetTaskByIDSimple (ba_TaskID ba) db with
  | inl err => (Some err, db)
  | inr t => reconcile (t_ID t) (t_ListID t) (u_ID <$> ba_Assignees ba) db
  end.
Proof.
  unfold BulkAssignees_Create.
  destruct (GetTaskByIDSimple _ db) as [e|t]; [done|].
  edestruct (updateTaskAssignees_reconcile
               (mkTask (t_ID t) (t_ListID t)
                  (t_Assignees t ++
                     (wu_User <$> getRawTaskAssigneesForTasks [t_ID t] db)))
               NewSession (ba_Assignees ba) db) as [t' Ht']; [done|].
  rewrite Ht'. cbn [t_ID t_ListID].
  destruct (reconcile _ _ _ db) as [[e|] db']; done.
Qed.

Lemma GetTaskByIDSimple_inr taskID db t :
  GetTaskByIDSimple taskID db = inr t → t ∈ tasks db ∧ t_ID t = taskID.
Proof.
  unfold GetTaskByIDSimple.
  destruct (first_row _ (tasks db)) as [t0|] eqn:E; [|done].
  intros [= <-]. by apply first_row_Some in E.
Qed.
End bulk_unfold.

(** ** Small facts about filtering *)

Lemma filter_all {A} (P : A → Prop) `{∀ x, Decision (P x)} (l : list A) :
  Forall P l → filter P l = l.
Proof.
  induction 1 as [|x l Hx Hl IH]; [done|].
  by rewrite filter_cons, decide_True, IH.
Qed.

Lemma filter_none {A} (P : A → Prop) `{∀ x, Decision (P x)} (l : list A) :
  Forall (λ x, ¬ P x) l → filter P l = [].
Proof.
  induction 1 as [|x l Hx Hl IH]; [done|].
  by rewrite filter_cons, decide_False, IH.
Qed.

(** ** Single add and single remove *)

(** C7.  When the access check says that the principal may not read the
    container, the addition fails with
    [ErrUserDoesNotHaveAccessToList{list.ID, newAssigneeID}], which carries
    the identifier of the container and of the principal, and the store is
    left as it was: no row is inserted.  This holds for
    [addNewAssigneeByID] itself, for the single add [TaskAssginee.Create]
    and for the step of the bulk loop that reaches such a principal. *)
Theorem add_denied_no_insert t k lst db u :
  GetUserByID k db = inr u →
  List_CanRead lst u db = inr false →
  addNewAssigneeByID t k lst db
    = (Some (ErrUserDoesNotHaveAccessToList (l_ID lst) k), db) ∧
  (∀ la, ta_UserID la = k →
         GetListSimplByTaskID (ta_TaskID la) db = inr lst →
         TaskAssginee_Create la db
           = (Some (ErrUserDoesNotHaveAccessToList (l_ID lst) k), db)) ∧
  (∀ (oldAssignees : gmap Z User) usr rest,
         u_ID usr = k → oldAssignees !! k = None →
         addLoop t lst oldAssignees (usr :: rest) db
           = (Some (ErrUserDoesNotHaveAccessToList (l_ID lst) k), db)).
Proof.
  intros Hu Hread.
  assert (∀ t', addNewAssigneeByID t' k lst db
                = (Some (ErrUserDoesNotHaveAccessToList (l_ID lst) k), db)) as Hadd.
  { intros t'. unfold addNewAssigneeByID. by rewrite Hu, Hread. }
  split; [apply Hadd|]. split.
  - intros la Hk Hlst. unfold TaskAssginee_Create. rewrite Hlst, Hk. apply Hadd.
  - intros old usr rest Hk Hold. cbn [addLoop]. rewrite Hk, Hold.
    rewrite bool_decide_false by (by intros [? ?]). by rewrite Hadd.
Qed.

Lemma add_denied_no_insert_witness :
  addNewAssigneeByID (mkTask 10 100 []) 4 (mkList 100 0) (store [(10, 1)])
  = (Some (ErrUserDoesNotHaveAccessToList 100 4), store [(10, 1)]).
Proof.
  apply (add_denied_no_insert (mkTask 10 100 []) 4 (mkList 100 0)
           (store [(10, 1)]) dave); reflexivity.
Defined.




(** C10.  A single remove that does not fail has updated the marker of the
    list that owns the task: after the delete statement it executes exactly
    one update of that list, whatever the delete removed -- also when no
    row matched. *)
Theorem delete_updates_marker la db db' :
  TaskAssginee_Delete la db = (None, db') →
  ∃ t cs,
    GetTaskByIDSimple (ta_TaskID la) db = inr t ∧
    written db db' = [SDelete cs; SUpdateList (t_ListID t)] ∧
    lists db' = touch (t_ListID t) (lists db) ∧
    marker db' (t_ListID t) = (λ v, v + 1) <$> marker db (t_ListID t).
Proof.
  unfold TaskAssginee_Delete, Engine_Delete.
  destruct ([] ++ beanConds _) as [|c cs]; [done|].
  unfold updateListByTaskID, GetTaskByIDSimple. rewrite exec_tasks.
  destruct (first_row _ (tasks db)) as [t|]; [|done].
  unfold updateListLastUpdated. cbn [l_ID]. intros Heq.
  assert (db' = exec (SUpdateList (t_ListID t)) (exec (SDelete (c :: cs)) db))
    as -> by congruence.
  exists t, (c :: cs). split; [done|]. split; [|split].
  - apply written_app. rewrite !exec_statements. by rewrite <-(assoc_L (++)).
  - done.
  - by rewrite marker_exec_touch, marker_exec_other.
Qed.

Lemma delete_updates_marker_witness :
  ∃ db', TaskAssginee_Delete (mkTaskAssginee 0 10 2) (store [(10, 1)]) = (None, db') ∧
         marker db' 100 = Some 1 ∧ task_assignees db' = task_assignees (store [(10, 1)]).
Proof.
  eexists. split; [reflexivity|].
  destruct (delete_updates_marker (mkTaskAssginee 0 10 2) (store [(10, 1)]) _ eq_refl)
    as (t & cs & Ht & _ & _ & Hm).
  injection Ht as <-. split; [exact Hm | reflexivity].
Defined.

(** ** Bulk replace: the paths without a delta loop *)

(** C8.  When the desired list and the current set are both empty,
    [updateTaskAssignees] returns [nil] and hands back the store it was
    given -- tables, markers and the log of executed statements are the
    same, so nothing was written and no marker was updated -- and so does
    [BulkAssignees.Create] for a task that exists. *)
Theorem empty_to_empty_noop t s db :
  CurrentSet db (t_ID t) = [] →
  updateTaskAssignees t s [] db = (None, mkTask (t_ID t) (t_ListID t) [], s, db) ∧
  (∀ ba, ba_Assignees ba = [] →
         GetTaskByIDSimple (ba_TaskID ba) db = inr t →
         BulkAssignees_Create ba db = (None, db) ∧ written db db = []).
Proof.
  intros Hcur. split.
  - unfold updateTaskAssignees. apply fmap_nil_inv in Hcur. by rewrite Hcur.
  - intros ba Hba Ht. rewrite BulkAssignees_Create_reconcile, Ht, Hba.
    unfold reconcile. rewrite Hcur. split; [done | apply written_refl].
Qed.

Lemma empty_to_empty_noop_witness :
  BulkAssignees_Create (mkBulkAssignees [] 10) (store [(11, 1)])
  = (None, store [(11, 1)]).
Proof.
  apply (empty_to_empty_noop (mkTask 10 100 []) NewSession (store [(11, 1)]));
    reflexivity.
Defined.

(** The fast path: with nothing desired and something assigned, the call
    is one delete of all rows of the task and nothing else. *)
Lemma fast_path_effect ba db t :
  GetTaskByIDSimple (ba_TaskID ba) db = inr t →
  ba_Assignees ba = [] → CurrentSet db (t_ID t) ≠ [] →
  BulkAssignees_Create ba db = (None, exec (SDelete [CTaskID (t_ID t)]) db).
Proof.
  intros Ht Hba Hcur. rewrite BulkAssignees_Create_reconcile, Ht, Hba.
  unfold reconcile. by destruct (CurrentSet db (t_ID t)).
Qed.

(** C4.  With the assignees 1, 2 and 3 stored for task 10 and an empty
    desired list, the bulk replace succeeds, executes the single statement
    [DELETE FROM task_assignees WHERE task_id = 10], inserts nothing and
    leaves no row of the task -- but it returns before
    [updateListLastUpdated]: the marker of list 100 is not updated. *)
Theorem fast_path_skips_marker :
  let db := store [(10, 1); (10, 2); (10, 3)] in
  ∃ db',
    BulkAssignees_Create (mkBulkAssignees [] 10) db = (None, db') ∧
    CurrentSet db 10 = [1; 2; 3] ∧
    written db db' = [SDelete [CTaskID 10]] ∧
    inserted 10 (written db db') = [] ∧
    task_assignees db' = [] ∧
    marker_updates 100 (written db db') = 0%nat ∧
    marker db' 100 = marker db 100.
Proof.
  intros db. eexists. split.
  - by apply (fast_path_effect _ db (mkTask 10 100 [])).
  - by vm_compute.
Qed.

(** ** Failures and duplicates *)

(** C1.  A bulk replace that fails keeps what it wrote before the failure.
    With bob allowed and dave refused, the desired list [bob; dave] on the
    unassigned task 10 ends with the access error for dave, and bob's row
    stays in the table.  With alice assigned and [dave] desired, alice's
    row is deleted before the error and stays deleted.  The delete goes
    through a session on which [Begin] was never called, so [Rollback] has
    nothing to undo; the insert goes through the engine [x] and would not
    even belong to a transaction of the session: after [Begin], the same
    run followed by [Rollback] still leaves bob's row. *)
Theorem bulk_failure_is_not_rolled_back :
  (∃ db',
     BulkAssignees_Create (mkBulkAssignees [bob; dave] 10) (store [])
       = (Some (ErrUserDoesNotHaveAccessToList 100 4), db') ∧
     CurrentSet (store []) 10 = [] ∧ CurrentSet db' 10 = [2]) ∧
  (∃ db',
     BulkAssignees_Create (mkBulkAssignees [dave] 10) (store [(10, 1)])
       = (Some (ErrUserDoesNotHaveAccessToList 100 4), db') ∧
     CurrentSet (store [(10, 1)]) 10 = [1] ∧ CurrentSet db' 10 = []) ∧
  (∃ t s db1 db',
     updateTaskAssignees (mkTask 10 100 []) (Session_Begin NewSession)
                         [bob; dave] (store [])
       = (Some (ErrUserDoesNotHaveAccessToList 100 4), t, s, db1) ∧
     Session_Rollback s db1 = (None, mkSession true [], db') ∧
     CurrentSet db' 10 = [2]).
Proof.
  split; [|split].
  - eexists. by vm_compute.
  - eexists. by vm_compute.
  - do 4 eexists. by vm_compute.
Qed.

(** C5.  The single add of a pair that is already stored is accepted: bob
    is assigned to task 10, [TaskAssginee.Create] for the same pair returns
    [nil], and the table then holds two rows for the pair.  Neither the
    code nor the table (whose columns [task_id] and [user_id] are indexed,
    not unique) refuses the second row. *)
Theorem single_add_duplicates_row :
  ∃ db',
    TaskAssginee_Create (mkTaskAssginee 0 10 2) (store [(10, 2)]) = (None, db') ∧
    task_assignees (store [(10, 2)]) = [mkTaskAssginee 1 10 2] ∧
    task_assignees db' = [mkTaskAssginee 1 10 2; mkTaskAssginee 2 10 2].
Proof. eexists. by vm_compute. Qed.

(** ** The current set after the statements of a bulk replace *)

Section current_set.
Implicit Types (db : DB) (k tid lid : Z).

Lemma CurrentSet_frame db db' tid :
  task_assignees db' = task_assignees db → users db' = users db →
  CurrentSet db' tid = CurrentSet db tid.
Proof.
  intros Hrows Husers. unfold CurrentSet, getRawTaskAssigneesForTasks.
  by rewrite Hrows, Husers.
Qed.

Lemma CurrentSet_touch db tid lid :
  CurrentSet (exec (SUpdateList lid) db) tid = CurrentSet db tid.
Proof. by apply CurrentSet_frame. Qed.

Lemma elem_of_exec_delete db cs r :
  r ∈ task_assignees (exec (SDelete cs) db) ↔
  matches cs r = false ∧ r ∈ task_assignees db.
Proof.
  cbn [exec task_assignees].
  exact (list_elem_of_filter (λ r, matches cs r = false) _ r).
Qed.

Lemma matches_in_task del tid r :
  matches [CUserIn del; CTaskID tid] r = true ↔
  ta_UserID r ∈ del ∧ ta_TaskID r = tid.
Proof.
  cbn. rewrite andb_true_r, andb_true_iff, !bool_decide_eq_true. tauto.
Qed.

Lemma matches_task tid r :
  matches [CTaskID tid] r = true ↔ ta_TaskID r = tid.
Proof. cbn. by rewrite andb_true_r, bool_decide_eq_true. Qed.

(** After the fast path no row of the task is left. *)
Lemma CurrentSet_delete_task db tid :
  CurrentSet (exec (SDelete [CTaskID tid]) db) tid = [].
Proof.
  apply elem_of_nil_inv. intros k [(r & Hr & Ht & _) _]%elem_of_CurrentSet.
  apply elem_of_exec_delete in Hr as [Hm _].
  apply not_true_iff_false in Hm. by rewrite matches_task in Hm.
Qed.

Lemma elem_of_removeAll db tid del r :
  r ∈ task_assignees (removeAll tid del db) ↔
  r ∈ task_assignees db ∧ ¬ (ta_UserID r ∈ del ∧ ta_TaskID r = tid).
Proof.
  unfold removeAll. destruct del as [|d del].
  - rewrite elem_of_nil. tauto.
  - rewrite elem_of_exec_delete, <-not_true_iff_false, matches_in_task. tauto.
Qed.

Lemma removeAll_users db tid del : users (removeAll tid del db) = users db.
Proof. unfold removeAll. destruct del; [done | apply exec_users]. Qed.

Lemma removeAll_can_read db tid del : can_read (removeAll tid del db) = can_read db.
Proof. unfold removeAll. destruct del; [done | apply exec_can_read]. Qed.

Lemma removeAll_lists db tid del : lists (removeAll tid del db) = lists db.
Proof. unfold removeAll. by destruct del. Qed.

Lemma removeAll_tasks db tid del : tasks (removeAll tid del db) = tasks db.
Proof. unfold removeAll. by destruct del. Qed.

Lemma CurrentSet_removeAll db tid del k :
  k ∈ CurrentSet (removeAll tid del db) tid ↔ k ∈ CurrentSet db tid ∧ k ∉ del.
Proof.
  rewrite !elem_of_CurrentSet, removeAll_users. split.
  - intros [(r & Hr & Ht & Hk) Hu]. apply elem_of_removeAll in Hr as [Hr Hdel].
    subst k. split; [split; [by exists r | done]|]. tauto.
  - intros [[(r & Hr & Ht & Hk) Hu] Hdel]. split; [|done].
    exists r. split; [|done]. apply elem_of_removeAll. subst k. tauto.
Qed.

Lemma CurrentSet_assignAll db tid lid done k :
  k ∈ CurrentSet (assignAll tid lid done db) tid ↔
  k ∈ CurrentSet db tid ∨ (k ∈ done ∧ ∃ u, u ∈ users db ∧ u_ID u = k).
Proof.
  rewrite !elem_of_CurrentSet, assignAll_users.
  destruct (assignAll_task_assignees tid lid done db) as (news & -> & <- & Hnews).
  rewrite Forall_forall in Hnews. split.
  - intros [(r & Hr & Ht & Hk) Hu]. apply elem_of_app in Hr as [Hr|Hr].
    + left. split; [by exists r | done].
    + right. split; [|done]. subst k. apply list_elem_of_fmap. by exists r.
  - intros [[(r & Hr & Ht & Hk) Hu] | [Hk Hu]].
    + split; [|done]. exists r. rewrite elem_of_app. tauto.
    + split; [|done]. apply list_elem_of_fmap in Hk as (r & -> & Hr).
      exists r. rewrite elem_of_app. auto.
Qed.

Lemma elem_of_toAdd (cur des : list Z) k : k ∈ toAdd cur des ↔ (k ∉ cur) ∧ (k ∈ des).
Proof. exact (list_elem_of_filter (λ k, k ∉ cur) _ k). Qed.

Lemma elem_of_toRemove (cur des : list Z) k : k ∈ toRemove cur des ↔ (k ∉ des) ∧ (k ∈ cur).
Proof. exact (list_elem_of_filter (λ k, k ∉ des) _ k). Qed.
End current_set.

(** ** A successful bulk replace with a non-empty desired list *)

Section general_path.
Implicit Types (db : DB) (k tid lid : Z) (des : list Z).

(** The store after a success: the delete of [toRemove], the additions of
    [toAdd] in order, and the closing update of the marker.  Every added
    principal passed the access check. *)
Lemma reconcile_success tid lid des db db' :
  des ≠ [] →
  reconcile tid lid des db = (None, db') →
  ∃ lst,
    List_GetSimpleByID (mkList lid 0) db = inr lst ∧
    Forall (λ k, canAssign db lst k = None) (toAdd (CurrentSet db tid) des) ∧
    db' = exec (SUpdateList lid)
            (assignAll tid lid (toAdd (CurrentSet db tid) des)
               (removeAll tid (toRemove (CurrentSet db tid) des) db)).
Proof.
  intros Hdes. unfold reconcile. destruct des as [|d des]; [done|].
  set (ids := d :: des). set (cur := CurrentSet db tid).
  set (db1 := removeAll tid (toRemove cur ids) db).
  assert (List_GetSimpleByID (mkList lid 0) db1
          = List_GetSimpleByID (mkList lid 0) db) as ->.
  { unfold List_GetSimpleByID, db1. by rewrite removeAll_lists. }
  destruct (List_GetSimpleByID _ db) as [e|lst]; [done|].
  destruct (addRun tid lid lst (toAdd cur ids) db1) as [[e|] db2] eqn:Hrun; [done|].
  intros [= <-]. exists lst. split; [done|].
  apply addRun_inv in Hrun as (done & rest & Hids & -> & Hdone & ->).
  rewrite app_nil_r in Hids. subst done. split; [|done].
  eapply Forall_impl; [exact Hdone|]. intros k. cbv beta.
  rewrite (canAssign_frame db db1); [done|..]; unfold db1.
  - apply removeAll_users.
  - apply removeAll_can_read.
Qed.

Lemma statements_removeAll db tid del :
  ∃ dels, statements (removeAll tid del db) = statements db ++ dels ∧
          inserted tid dels = [] ∧ ∀ l, marker_updates l dels = 0%nat.
Proof.
  unfold removeAll. destruct del as [|d del].
  - exists []. by rewrite app_nil_r.
  - eexists. split; [apply exec_statements|]. split; [done|].
    intros l. unfold marker_updates. by rewrite filter_cons, decide_False.
Qed.

Lemma inserted_app tid (s1 s2 : list Stmt) :
  inserted tid (s1 ++ s2) = inserted tid s1 ++ inserted tid s2.
Proof. apply bind_app. Qed.

Lemma marker_updates_app l (s1 s2 : list Stmt) :
  marker_updates l (s1 ++ s2) = (marker_updates l s1 + marker_updates l s2)%nat.
Proof. unfold marker_updates. by rewrite filter_app, length_app. Qed.

Lemma inserted_assign tid lid (done : list Z) :
  inserted tid (done ≫= λ k, [SInsert tid k; SUpdateList lid]) = done.
Proof.
  induction done as [|k done IH]; [done|].
  cbn. rewrite decide_True by done. cbn. f_equal. exact IH.
Qed.

Lemma marker_updates_assign tid lid (done : list Z) :
  marker_updates lid (done ≫= λ k, [SInsert tid k; SUpdateList lid]) = length done.
Proof.
  induction done as [|k done IH]; [done|].
  unfold marker_updates in *. cbn [mbind list_bind app].
  rewrite filter_cons, decide_False by done.
  rewrite filter_cons, decide_True by done. cbn [length]. f_equal. exact IH.
Qed.
End general_path.

Section bulk_success.
Implicit Types (db : DB) (k tid lid : Z) (ba : BulkAssignees).

Lemma removeAll_task_assignees db tid del :
  task_assignees (removeAll tid del db) =
  filter (λ r, ¬ (ta_UserID r ∈ del ∧ ta_TaskID r = tid)) (task_assignees db).
Proof.
  unfold removeAll. destruct del as [|d del].
  - symmetry. apply filter_all, Forall_forall. intros r _. rewrite elem_of_nil. tauto.
  - cbn [exec task_assignees]. apply list_filter_iff. intros r.
    by rewrite <-not_true_iff_false, matches_in_task.
Qed.

(** The statements of a successful general path. *)
Lemma written_success db tid lid (add del : list Z) :
  ∃ dels,
    written db (exec (SUpdateList lid) (assignAll tid lid add (removeAll tid del db)))
    = dels ++ (add ≫= λ k, [SInsert tid k; SUpdateList lid]) ++ [SUpdateList lid] ∧
    inserted tid dels = [] ∧ ∀ l, marker_updates l dels = 0%nat.
Proof.
  destruct (statements_removeAll db tid del) as (dels & Hdels & Hins & Hupd).
  exists dels. split; [|done]. apply written_app.
  rewrite exec_statements, assignAll_statements, Hdels.
  by rewrite <-!(assoc_L (++)).
Qed.

Lemma marker_removeAll db tid del l : marker (removeAll tid del db) l = marker db l.
Proof. unfold marker. by rewrite removeAll_lists. Qed.
End bulk_success.

(** C2, as stated, fails: alice is the one assignee of task 10 and the
    desired list is [alice].  The delta is empty, the call succeeds, and
    the marker of list 100 is updated once by the closing
    [updateListLastUpdated]. *)
Lemma marker_once_per_delta_fails : ¬ marker_once_per_delta.
Proof.
  intros Hclaim.
  specialize (Hclaim (mkBulkAssignees [alice] 10) (store [(10, 1)]) _
                     (mkTask 10 100 []) eq_refl eq_refl).
  vm_compute in Hclaim. discriminate Hclaim.
Qed.

(** C2, amended.  A successful bulk replace with a non-empty desired list
    updates the marker of the list once for every principal it adds and
    once more at the end of the call -- [1 + |toAdd|] times, so once when
    the delta is empty.  When the desired list and the current set are both
    empty the marker is not updated. *)
Theorem marker_updates_of_bulk ba db db' t :
  BulkAssignees_Create ba db = (None, db') →
  GetTaskByIDSimple (ba_TaskID ba) db = inr t →
  let cur := CurrentSet db (t_ID t) in
  let des := u_ID <$> ba_Assignees ba in
  (des ≠ [] →
     marker_updates (t_ListID t) (written db db') = S (length (toAdd cur des)) ∧
     ∃ v, marker db (t_ListID t) = Some v ∧
          marker db' (t_ListID t) = Some (v + Z.of_nat (S (length (toAdd cur des))))) ∧
  (des = [] → cur = [] →
     marker_updates (t_ListID t) (written db db') = 0%nat ∧ lists db' = lists db).
Proof.
  intros Hrun Ht cur des. rewrite BulkAssignees_Create_reconcile, Ht in Hrun.
  fold des in Hrun. split.
  - intros Hdes. apply reconcile_success in Hrun as (lst & Hlst & _ & ->); [|done].
    fold cur. split.
    + destruct (written_success db (t_ID t) (t_ListID t) (toAdd cur des)
                  (toRemove cur des)) as (dels & -> & _ & Hdels).
      rewrite !marker_updates_app, Hdels, marker_updates_assign.
      unfold marker_updates. rewrite filter_cons, decide_True by done. cbn. lia.
    + rewrite marker_exec_touch, assignAll_marker, marker_removeAll.
      unfold List_GetSimpleByID in Hlst. unfold marker. cbn [l_ID] in Hlst.
      destruct (first_row _ (lists db)) as [row|]; [|done].
      eexists. split; [done|]. cbn. f_equal. lia.
  - intros Hdes Hcur. unfold reconcile in Hrun. fold cur in Hrun.
    rewrite Hdes, Hcur in Hrun. injection Hrun as <-.
    by rewrite written_refl.
Qed.

Lemma marker_updates_of_bulk_witness :
  ∃ db',
    BulkAssignees_Create (mkBulkAssignees [bob; carol] 10) (store [(10, 1); (10, 2)])
      = (None, db') ∧
    marker_updates 100 (written (store [(10, 1); (10, 2)]) db') = 2%nat.
Proof.
  eexists. split; [reflexivity|].
  apply (marker_updates_of_bulk (mkBulkAssignees [bob; carol] 10)
           (store [(10, 1); (10, 2)]) _ (mkTask 10 100 []) eq_refl eq_refl).
  discriminate.
Defined.

(** The delta of a successful bulk replace, in the terms of the store. *)
Lemma bulk_replace_delta ba db db' :
  BulkAssignees_Create ba db = (None, db') →
  let tid := ba_TaskID ba in
  let cur := CurrentSet db tid in
  let des := u_ID <$> ba_Assignees ba in
  (∀ k, k ∈ CurrentSet db' tid ↔ k ∈ des) ∧
  inserted tid (written db db') = toAdd cur des ∧
  (∀ r, r ∈ task_assignees db → ta_TaskID r = tid →
        ta_UserID r ∈ toRemove cur des → r ∉ task_assignees db') ∧
  (∀ k, k ∈ cur → k ∈ des →
        filter (λ r, ta_TaskID r = tid ∧ ta_UserID r = k) (task_assignees db')
        = filter (λ r, ta_TaskID r = tid ∧ ta_UserID r = k) (task_assignees db)).
Proof.
  intros Hrun tid cur des. rewrite BulkAssignees_Create_reconcile in Hrun.
  destruct (GetTaskByIDSimple (ba_TaskID ba) db) as [e|t] eqn:Ht; [done|].
  apply GetTaskByIDSimple_inr in Ht as [_ Htid]. rewrite Htid in Hrun.
  fold tid des in Hrun. destruct (decide (des = [])) as [Hdes|Hdes].
  - (* nothing desired: the fast path, or nothing to do *)
    unfold reconcile in Hrun. fold cur in Hrun. rewrite Hdes in *.
    destruct cur as [|c cur'] eqn:Hcur; store_of Hrun.
    + rewrite written_refl. fold cur. rewrite Hcur.
      split; [done|]. split; [done|]. split.
      * intros r _ _ Hr. by apply elem_of_nil in Hr.
      * intros k Hk. by apply elem_of_nil in Hk.
    + rewrite CurrentSet_delete_task.
      erewrite written_app by apply exec_statements.
      split; [done|]. split; [done|]. split.
      * intros r _ Hr _ [Hm _]%elem_of_exec_delete.
        apply not_true_iff_false in Hm. by rewrite matches_task in Hm.
      * intros k _ Hk. by apply elem_of_nil in Hk.
  - (* the general path *)
    apply reconcile_success in Hrun as (lst & _ & Hcheck & ->); [|done].
    fold cur in Hcheck |- *. rewrite Forall_forall in Hcheck.
    set (add := toAdd cur des) in *. set (del := toRemove cur des) in *.
    destruct (assignAll_task_assignees tid (t_ListID t) add (removeAll tid del db))
      as (news & Hrows & Hnews & _).
    assert (∀ r, r ∈ news → ta_UserID r ∉ cur) as Hfresh.
    { intros r Hr. assert (ta_UserID r ∈ add) as Hin.
      { rewrite <-Hnews. apply list_elem_of_fmap. by exists r. }
      by apply elem_of_toAdd in Hin as [? _]. }
    split; [|split; [|split]].
    + intros k. rewrite CurrentSet_touch, CurrentSet_assignAll, CurrentSet_removeAll.
      rewrite removeAll_users. unfold add, del.
      rewrite elem_of_toAdd, elem_of_toRemove. split.
      * intros [[Hk Hdel]|[[_ Hk] _]]; [|done].
        destruct (decide (k ∈ des)); [done|]. destruct Hdel. by split.
      * intros Hk. destruct (decide (k ∈ cur)) as [Hc|Hc].
        -- left. split; [done|]. tauto.
        -- right. split; [done|]. eapply canAssign_None_user, Hcheck.
           by apply elem_of_toAdd.
    + destruct (written_success db tid (t_ListID t) add del) as (dels & -> & Hdels & _).
      rewrite !inserted_app, Hdels, inserted_assign. cbn. by rewrite app_nil_r.
    + intros r Hr Htr Hdel. cbn [exec task_assignees]. rewrite Hrows, elem_of_app.
      intros [Hin|Hin].
      * apply elem_of_removeAll in Hin as [_ Hin]. tauto.
      * apply Hfresh in Hin. by apply elem_of_toRemove in Hdel as [_ ?].
    + intros k Hc Hd. cbn [exec task_assignees].
      rewrite Hrows, filter_app, removeAll_task_assignees, list_filter_filter.
      rewrite (filter_none _ news), app_nil_r.
      * apply list_filter_iff. intros r. split; [tauto|]. intros [Htr Hk].
        split; [done|]. rewrite Hk. intros [Hdel _].
        by apply elem_of_toRemove in Hdel as [? _].
      * apply Forall_forall. intros r Hr [_ Hk]. apply Hfresh in Hr. congruence.
Qed.

(** A successful bulk replace keeps the users, and every row it leaves for
    the task has its user when every row it found had one. *)
Lemma reconcile_rows_users tid lid des db db' :
  reconcile tid lid des db = (None, db') →
  users db' = users db ∧
  ((∀ r, r ∈ task_assignees db → ta_TaskID r = tid →
         ∃ u, u ∈ users db ∧ u_ID u = ta_UserID r) →
   ∀ r, r ∈ task_assignees db' → ta_TaskID r = tid →
        ∃ u, u ∈ users db ∧ u_ID u = ta_UserID r).
Proof.
  intros Hrun. destruct (decide (des = [])) as [->|Hdes].
  - unfold reconcile in Hrun.
    destruct (CurrentSet db tid); store_of Hrun.
    + done.
    + split; [apply exec_users|]. intros Hint r [_ Hr]%elem_of_exec_delete.
      by apply Hint.
  - apply reconcile_success in Hrun as (lst & _ & Hcheck & ->); [|done].
    rewrite Forall_forall in Hcheck.
    split; [by rewrite exec_users, assignAll_users, removeAll_users|].
    intros Hint r Hr Htid. cbn [exec task_assignees] in Hr.
    destruct (assignAll_task_assignees tid lid (toAdd (CurrentSet db tid) des)
                (removeAll tid (toRemove (CurrentSet db tid) des) db))
      as (news & Hrows & Hnews & _).
    rewrite Hrows, elem_of_app in Hr. destruct Hr as [Hr|Hr].
    + apply elem_of_removeAll in Hr as [Hr _]. by apply Hint.
    + eapply canAssign_None_user, Hcheck. rewrite <-Hnews.
      apply list_elem_of_fmap. by exists r.
Qed.

(** C3.  After a successful bulk replace the current set of the task is the
    desired set: a principal is assigned exactly when it is in the desired
    list.  The rows inserted are those of [toAdd = desired \ current], in
    the order of the desired list; every row of a principal in
    [toRemove = current \ desired] is gone; for a principal in both sets
    the rows of its pair are the rows that were there before, neither
    deleted nor inserted again.  The current set is what the code loads:
    the rows of the task joined with the users.  When every row of the task
    has its user, the same holds for the bare rows: the table has a row for
    the task and a principal exactly when the principal is desired. *)
Theorem bulk_replace_sets_desired ba db db' :
  BulkAssignees_Create ba db = (None, db') →
  let tid := ba_TaskID ba in
  let cur := CurrentSet db tid in
  let des := u_ID <$> ba_Assignees ba in
  (∀ k, k ∈ CurrentSet db' tid ↔ k ∈ des) ∧
  inserted tid (written db db') = toAdd cur des ∧
  (∀ r, r ∈ task_assignees db → ta_TaskID r = tid →
        ta_UserID r ∈ toRemove cur des → r ∉ task_assignees db') ∧
  (∀ k, k ∈ cur → k ∈ des →
        filter (λ r, ta_TaskID r = tid ∧ ta_UserID r = k) (task_assignees db')
        = filter (λ r, ta_TaskID r = tid ∧ ta_UserID r = k) (task_assignees db)) ∧
  ((∀ r, r ∈ task_assignees db → ta_TaskID r = tid →
         ∃ u, u ∈ users db ∧ u_ID u = ta_UserID r) →
   ∀ k, (∃ r, r ∈ task_assignees db' ∧ ta_TaskID r = tid ∧ ta_UserID r = k) ↔ k ∈ des).
Proof.
  intros Hrun tid cur des.
  destruct (bulk_replace_delta ba db db' Hrun) as (Hset & Hins & Hdel & Hkeep).
  do 4 (split; [done|]). intros Hint k.
  rewrite BulkAssignees_Create_reconcile in Hrun.
  destruct (GetTaskByIDSimple (ba_TaskID ba) db) as [e|t] eqn:Ht; [done|].
  apply GetTaskByIDSimple_inr in Ht as [_ Htid]. rewrite Htid in Hrun.
  apply reconcile_rows_users in Hrun as [Husers Hrows].
  split.
  - intros (r & Hr & Ht & Hk). apply Hset, elem_of_CurrentSet.
    split; [by exists r|]. rewrite Husers, <-Hk. by apply Hrows.
  - intros Hk. apply Hset, elem_of_CurrentSet in Hk as [Hk _]. exact Hk.
Qed.

Lemma bulk_replace_sets_desired_witness :
  ∃ db',
    BulkAssignees_Create (mkBulkAssignees [bob; carol] 10) (store [(10, 1); (10, 2)])
      = (None, db') ∧
    (∀ k, k ∈ CurrentSet db' 10 ↔ k ∈ [2; 3]) ∧
    inserted 10 (written (store [(10, 1); (10, 2)]) db') = [3].
Proof.
  eexists. split; [reflexivity|].
  destruct (bulk_replace_sets_desired (mkBulkAssignees [bob; carol] 10)
              (store [(10, 1); (10, 2)]) _ eq_refl) as (Hset & Hins & _).
  split; [exact Hset | exact Hins].
Defined.

(** ** Bulk replace: when it succeeds and what it may insert *)

Lemma addRun_all_pass tid lid lst ids db :
  Forall (λ k, canAssign db lst k = None) ids →
  addRun tid lid lst ids db = (None, assignAll tid lid ids db).
Proof.
  revert db. induction ids as [|k ids IH]; intros db Hids; [done|].
  apply Forall_cons in Hids as [Hk Hids]. cbn [addRun]. rewrite Hk.
  rewrite assignAll_cons. apply IH.
  eapply Forall_impl; [exact Hids|]. intros k'. cbv beta. by rewrite canAssign_assign.
Qed.

(** The bulk replace succeeds when the task and its list exist and every
    desired principal exists and may read the list. *)
Lemma bulk_replace_succeeds ba db t lst :
  GetTaskByIDSimple (ba_TaskID ba) db = inr t →
  List_GetSimpleByID (mkList (t_ListID t) 0) db = inr lst →
  (∀ u, u ∈ ba_Assignees ba → canAssign db lst (u_ID u) = None) →
  ∃ db', BulkAssignees_Create ba db = (None, db').
Proof.
  intros Ht Hlst Hpass. rewrite BulkAssignees_Create_reconcile, Ht.
  unfold reconcile. destruct (u_ID <$> ba_Assignees ba) as [|d des] eqn:Hdes.
  { destruct (CurrentSet db (t_ID t)); eauto. }
  rewrite <-Hdes.
  set (cur := CurrentSet db (t_ID t)). set (ids := u_ID <$> ba_Assignees ba).
  set (dbd := removeAll (t_ID t) (toRemove cur ids) db).
  assert (List_GetSimpleByID (mkList (t_ListID t) 0) dbd = inr lst) as ->.
  { unfold List_GetSimpleByID, dbd in *. by rewrite removeAll_lists. }
  rewrite addRun_all_pass; [by eauto|].
  apply Forall_forall. intros k [_ Hk]%elem_of_toAdd.
  apply list_elem_of_fmap in Hk as (u & -> & Hu).
  rewrite (canAssign_frame db dbd); [by apply Hpass|..]; unfold dbd.
  - apply removeAll_users.
  - apply removeAll_can_read.
Qed.

Lemma written_partial db tid lid (add del : list Z) :
  ∃ dels,
    written db (assignAll tid lid add (removeAll tid del db))
    = dels ++ (add ≫= λ k, [SInsert tid k; SUpdateList lid]) ∧
    inserted tid dels = [] ∧ ∀ l, marker_updates l dels = 0%nat.
Proof.
  destruct (statements_removeAll db tid del) as (dels & Hdels & Hins & Hupd).
  exists dels. split; [|done]. apply written_app.
  rewrite assignAll_statements, Hdels. by rewrite <-!(assoc_L (++)).
Qed.

(** Whatever the result of a bulk replace, a row was inserted only for a
    principal that exists and may read the list of the task. *)
Lemma bulk_inserts_checked ba db r db' t k :
  BulkAssignees_Create ba db = (r, db') →
  GetTaskByIDSimple (ba_TaskID ba) db = inr t →
  k ∈ inserted (t_ID t) (written db db') →
  ∃ lst, List_GetSimpleByID (mkList (t_ListID t) 0) db = inr lst ∧
         canAssign db lst k = None.
Proof.
  intros Hrun Ht. rewrite BulkAssignees_Create_reconcile, Ht in Hrun.
  unfold reconcile in Hrun.
  destruct (u_ID <$> ba_Assignees ba) as [|d des] eqn:Hdes.
  { destruct (CurrentSet db (t_ID t)); store_of Hrun.
    - rewrite written_refl. by intros ?%elem_of_nil.
    - erewrite written_app by apply exec_statements. by intros ?%elem_of_nil. }
  rewrite <-Hdes in Hrun.
  set (cur := CurrentSet db (t_ID t)) in *.
  set (ids := u_ID <$> ba_Assignees ba) in *.
  set (dbd := removeAll (t_ID t) (toRemove cur ids) db) in *.
  assert (List_GetSimpleByID (mkList (t_ListID t) 0) dbd
          = List_GetSimpleByID (mkList (t_ListID t) 0) db) as Hsame.
  { unfold List_GetSimpleByID, dbd. by rewrite removeAll_lists. }
  rewrite Hsame in Hrun.
  destruct (List_GetSimpleByID _ db) as [e|lst].
  { store_of Hrun.
    destruct (statements_removeAll db (t_ID t) (toRemove cur ids))
      as (dels & Hdels & Hins & _).
    fold dbd in Hdels. rewrite (written_app _ _ _ Hdels), Hins.
    by intros ?%elem_of_nil. }
  destruct (addRun _ _ lst _ dbd) as [r0 db2] eqn:Hadd.
  apply addRun_inv in Hadd as (done & rest & _ & -> & Hdone & _).
  rewrite Forall_forall in Hdone.
  assert (k ∈ done → ∃ lst0, @inr error List lst = inr lst0 ∧ canAssign db lst0 k = None)
    as Hk.
  { intros Hin. exists lst. split; [done|].
    rewrite <-(canAssign_frame db dbd); [by apply Hdone|..]; unfold dbd.
    - apply removeAll_users.
    - apply removeAll_can_read. }
  destruct r0 as [e|]; store_of Hrun.
  - destruct (written_partial db (t_ID t) (t_ListID t) done (toRemove cur ids))
      as (dels & Hw & Hins & _).
    fold dbd in Hw. by rewrite Hw, inserted_app, Hins, inserted_assign.
  - destruct (written_success db (t_ID t) (t_ListID t) done (toRemove cur ids))
      as (dels & Hw & Hins & _).
    fold dbd in Hw. rewrite Hw, !inserted_app, Hins, inserted_assign.
    cbn. by rewrite app_nil_r.
Qed.

(** ** The same bulk replace, once more *)

Section again.
Implicit Types (db : DB) (k tid lid : Z) (lst : List).

Lemma canAssign_list_id db lst lst' k :
  l_ID lst = l_ID lst' → canAssign db lst k = canAssign db lst' k.
Proof. unfold canAssign. by intros ->. Qed.

(** Whether the list is found depends on the identifiers in [lists]. *)
Lemma List_GetSimpleByID_found lid db db' :
  (is_Some (first_row (λ r, l_ID r = lid) (lists db')) ↔
   is_Some (first_row (λ r, l_ID r = lid) (lists db))) →
  match List_GetSimpleByID (mkList lid 0) db with
  | inl err => List_GetSimpleByID (mkList lid 0) db' = inl err
  | inr lst =>
      ∃ lst', List_GetSimpleByID (mkList lid 0) db' = inr lst' ∧ l_ID lst' = l_ID lst
  end.
Proof.
  unfold List_GetSimpleByID. cbn [l_ID]. intros Hiff.
  destruct (first_row _ (lists db)) as [lst|] eqn:E;
    destruct (first_row _ (lists db')) as [lst'|] eqn:E'.
  - exists lst'. split; [done|].
    apply first_row_Some in E as [_ ->]. by apply first_row_Some in E' as [_ ->].
  - destruct Hiff as [_ Hiff]. by destruct Hiff as [? ?]; [eexists|].
  - destruct Hiff as [Hiff _]. by destruct Hiff as [? ?]; [eexists|].
  - done.
Qed.

(** Running the additions a second time.  [P] tells which identifiers
    were to be added the first time and [P2] which are to be added now:
    what was assigned before or has been added since is no longer to be
    added, and what did not pass the access check still is.  Then the second run
    adds nothing and ends as the first one did. *)
Lemma addRun_again tid lid lst lst' (P P2 : Z → Prop)
    `{∀ k, Decision (P k)} `{∀ k, Decision (P2 k)}
    (ids done rest : list Z) db dbx r :
  filter P ids = done ++ rest →
  match r with
  | None => rest = []
  | Some err => ∃ k rest', rest = k :: rest' ∧ canAssign db lst k = Some err
  end →
  (∀ k, canAssign dbx lst' k = canAssign db lst k) →
  (∀ k, k ∈ ids → ¬ P k → ¬ P2 k) →
  (∀ k, k ∈ done → ¬ P2 k) →
  (∀ k, P k → canAssign db lst k ≠ None → P2 k) →
  addRun tid lid lst' (filter P2 ids) dbx = (r, dbx).
Proof.
  intros Hsplit Hr Hcheck. revert done Hsplit.
  induction ids as [|k ids IH]; intros done Hsplit Hold Hdone Hfail.
  - symmetry in Hsplit. apply app_eq_nil in Hsplit as [-> ->].
    destruct r as [e|]; [|done]. by destruct Hr as (? & ? & ? & _).
  - rewrite filter_cons in Hsplit. rewrite filter_cons.
    destruct (decide (P k)) as [HP|HP].
    + destruct done as [|d done]; cbn [app] in Hsplit.
      * destruct r as [e|]; [|by subst rest].
        destruct Hr as (k' & rest' & -> & Hk'). injection Hsplit as <- _.
        rewrite decide_True by (apply Hfail; [done | congruence]).
        cbn [addRun]. by rewrite Hcheck, Hk'.
      * injection Hsplit as <- Hsplit.
        rewrite decide_False by (apply Hdone; left).
        apply (IH done); [done| |  |done].
        -- intros k' Hk'. apply Hold. by right.
        -- intros k' Hk'. apply Hdone. by right.
    + rewrite decide_False by (apply Hold; [left | done]).
      apply (IH done); [done| |done|done].
      intros k' Hk'. apply Hold. by right.
Qed.

(** A bulk replace that is run again on the store it left behind ends
    with the same result; it writes nothing, except that after a success
    with a non-empty desired list it updates the marker once more. *)
Lemma reconcile_again tid lid des db r db1 :
  reconcile tid lid des db = (r, db1) →
  reconcile tid lid des db1 =
  (r, match r, des with
      | None, _ :: _ => exec (SUpdateList lid) db1
      | _, _ => db1
      end).
Proof.
  destruct des as [|d des].
  { unfold reconcile at 1. destruct (CurrentSet db tid) as [|c cur] eqn:Hcur;
      intros [<- <-]%pair_equal_spec; unfold reconcile.
    - by rewrite Hcur.
    - by rewrite CurrentSet_delete_task. }
  set (ids := d :: des). unfold reconcile at 1. fold ids.
  set (cur := CurrentSet db tid).
  set (dbd := removeAll tid (toRemove cur ids) db).
  assert (∀ k, k ∈ CurrentSet dbd tid ↔ k ∈ cur ∧ k ∈ ids) as Hdbd.
  { intros k. unfold dbd. rewrite CurrentSet_removeAll, elem_of_toRemove.
    fold cur. destruct (decide (k ∈ ids)); tauto. }
  (* the store [dbx] after the first run has nothing to remove *)
  assert (∀ dbx, (∀ k, k ∈ CurrentSet dbx tid → k ∈ ids) →
                 removeAll tid (toRemove (CurrentSet dbx tid) ids) dbx = dbx)
    as Hnodel.
  { intros dbx Hsub. unfold toRemove. rewrite filter_none; [done|].
    apply Forall_forall. intros k Hk Hnot. by apply Hnot, Hsub. }
  destruct (List_GetSimpleByID (mkList lid 0) dbd) as [e|lst] eqn:Hlst.
  { intros [<- <-]%pair_equal_spec. unfold reconcile. fold ids.
    rewrite Hnodel by (intros k Hk; by apply Hdbd in Hk as [_ ?]).
    by rewrite Hlst. }
  destruct (addRun tid lid lst (toAdd cur ids) dbd) as [r0 db2] eqn:Hrun.
  apply addRun_inv in Hrun as (done & rest & Hsplit & -> & Hdone & Hr0).
  set (db2 := assignAll tid lid done dbd).
  rewrite Forall_forall in Hdone.
  assert (∀ k, k ∈ done → (k ∉ cur) ∧ (k ∈ ids)) as Hdone_add.
  { intros k Hk. apply elem_of_toAdd. rewrite Hsplit, elem_of_app. by left. }
  assert (∀ k, k ∈ CurrentSet db2 tid ↔ (k ∈ cur ∧ k ∈ ids) ∨ k ∈ done) as Hdb2.
  { intros k. unfold db2. rewrite CurrentSet_assignAll, Hdbd. split.
    - intros [?|[? _]]; tauto.
    - intros [?|Hk]; [tauto|]. right. split; [done|].
      eapply canAssign_None_user, Hdone, Hk. }
  assert (∀ k, k ∈ CurrentSet db2 tid → k ∈ ids) as Hsub.
  { intros k [[_ ?]|Hk]%Hdb2; [done|]. by apply Hdone_add in Hk as [_ ?]. }
  assert (∀ st, ∃ lst', List_GetSimpleByID (mkList lid 0) (exec st db2) = inr lst' ∧
                        l_ID lst' = l_ID lst) as Hfound_exec.
  { intros st.
    pose proof (List_GetSimpleByID_found lid dbd (exec st db2)) as Hf.
    rewrite Hlst in Hf. apply Hf. unfold db2.
    by rewrite List_GetSimpleByID_exec, assignAll_lists_exist. }
  assert (∃ lst', List_GetSimpleByID (mkList lid 0) db2 = inr lst' ∧
                  l_ID lst' = l_ID lst) as Hfound.
  { pose proof (List_GetSimpleByID_found lid dbd db2) as Hf.
    rewrite Hlst in Hf. apply Hf. unfold db2. by rewrite assignAll_lists_exist. }
  destruct r0 as [e|].
  - (* the first run failed at the access check: so does the second *)
    intros [<- <-]%pair_equal_spec. fold db2. unfold reconcile. fold ids.
    rewrite Hnodel by done. destruct Hfound as (lst' & -> & Hid).
    unfold toAdd.
    rewrite (addRun_again tid lid lst lst' (λ k, k ∉ cur)
               (λ k, k ∉ CurrentSet db2 tid) ids done rest dbd db2 (Some e));
      [done|done|done|..].
    + intros k. rewrite <-(canAssign_list_id _ lst lst') by done.
      apply canAssign_frame; unfold db2.
      * apply assignAll_users.
      * apply assignAll_can_read.
    + intros k Hk Hc Hc2. apply Hc2, Hdb2. left. split; [|done].
      by destruct (decide (k ∈ cur)).
    + intros k Hk Hc2. apply Hc2, Hdb2. by right.
    + intros k Hc Hg [[? _]|Hk]%Hdb2; [done|]. by apply Hg, Hdone.
  - (* the first run succeeded: everything desired is assigned now *)
    subst rest. rewrite app_nil_r in Hsplit. fold db2.
    intros [<- <-]%pair_equal_spec. unfold reconcile. fold ids.
    rewrite Hnodel by (by rewrite CurrentSet_touch).
    destruct (Hfound_exec (SUpdateList lid)) as (lst' & -> & _).
    unfold toAdd. rewrite filter_none; [done|].
    apply Forall_forall. intros k Hk Hnot.
    rewrite CurrentSet_touch in Hnot. apply Hnot, Hdb2.
    destruct (decide (k ∈ cur)); [by left|right].
    rewrite <-Hsplit. by apply elem_of_toAdd.
Qed.
End again.

Lemma reconcile_tasks tid lid des db :
  tasks (reconcile tid lid des db).2 = tasks db.
Proof.
  unfold reconcile. destruct des as [|d des].
  - by destruct (CurrentSet db tid).
  - destruct (List_GetSimpleByID _ _) as [e|lst]; cbn [snd].
    + apply removeAll_tasks.
    + destruct (addRun _ _ _ _ _) as [r db2] eqn:Hrun.
      apply addRun_inv in Hrun as (done & rest & _ & -> & _).
      destruct r; cbn [snd]; rewrite ?exec_tasks, assignAll_tasks;
        apply removeAll_tasks.
Qed.

(** C6, as stated, fails: alice is the one assignee of task 10 and the
    desired list is [alice].  Both calls succeed without touching the
    table, and each of them ends with [updateListLastUpdated]: the marker
    of list 100 is 1 after the first call and 2 after the second. *)
Lemma second_call_changes_nothing_fails : ¬ second_call_changes_nothing.
Proof.
  intros Hclaim.
  destruct (Hclaim (mkBulkAssignees [alice] 10) (store [(10, 1)])) as [_ Hmarker].
  specialize (Hmarker 100). vm_compute in Hmarker. discriminate Hmarker.
Qed.

(** C6, amended.  Of two bulk replaces in a row with the same task and the
    same desired list, the second returns what the first returned and
    leaves the rows of [task_assignees] as the first left them.  When the
    desired list is empty or the call fails, the second call leaves the
    whole store unchanged, the marker included; when it succeeds with a
    non-empty desired list, its one statement is a further update of the
    marker of the task's list. *)
Theorem second_bulk_replace ba db r1 db1 r2 db2 :
  BulkAssignees_Create ba db = (r1, db1) →
  BulkAssignees_Create ba db1 = (r2, db2) →
  r2 = r1 ∧
  task_assignees db2 = task_assignees db1 ∧
  (ba_Assignees ba = [] ∨ r2 ≠ None → db2 = db1) ∧
  (ba_Assignees ba ≠ [] → r2 = None →
     ∃ t, GetTaskByIDSimple (ba_TaskID ba) db = inr t ∧
          written db1 db2 = [SUpdateList (t_ListID t)] ∧
          marker db2 (t_ListID t) = (λ v, v + 1) <$> marker db1 (t_ListID t)).
Proof.
  rewrite !BulkAssignees_Create_reconcile.
  destruct (GetTaskByIDSimple (ba_TaskID ba) db) as [e|t] eqn:Ht.
  { intros [<- <-]%pair_equal_spec. rewrite Ht.
    intros [<- <-]%pair_equal_spec. by repeat split. }
  intros Hfirst.
  assert (GetTaskByIDSimple (ba_TaskID ba) db1 = inr t) as ->.
  { unfold GetTaskByIDSimple in *.
    by rewrite <-(f_equal snd Hfirst : _ = db1), reconcile_tasks. }
  rewrite (reconcile_again _ _ _ _ _ _ Hfirst).
  intros [<- <-]%pair_equal_spec. split; [done|].
  destruct (ba_Assignees ba) as [|u des]; cbn [fmap list_fmap].
  - by destruct r1; repeat split.
  - destruct r1 as [e|].
    + by repeat split.
    + split; [done|]. split.
      * intros [?|?]; done.
      * intros _ _. exists t. split; [done|]. split.
        -- erewrite written_app by apply exec_statements. done.
        -- apply marker_exec_touch.
Qed.

Lemma second_bulk_replace_witness :
  ∃ r1 db1 r2 db2,
    BulkAssignees_Create (mkBulkAssignees [bob; dave] 10) (store [(10, 1)]) = (r1, db1) ∧
    BulkAssignees_Create (mkBulkAssignees [bob; dave] 10) db1 = (r2, db2) ∧
    r2 = r1 ∧ task_assignees db2 = task_assignees db1.
Proof.
  do 4 eexists. split; [reflexivity|]. split; [reflexivity|].
  destruct (second_bulk_replace (mkBulkAssignees [bob; dave] 10) (store [(10, 1)])
              _ _ _ _ eq_refl eq_refl) as (Hr & Hrows & _).
  split; [exact Hr | exact Hrows].
Defined.

(** * Further properties of the package *)

(** ** The single add *)

(** A single add for a task whose list is found, of a user who exists and
    may read that list, returns [nil], appends exactly one row for the pair
    (with the next key of the table) and makes the user a current assignee
    of the task. *)
Theorem single_add_inserts_row la db lst u :
  GetListSimplByTaskID (ta_TaskID la) db = inr lst →
  GetUserByID (ta_UserID la) db = inr u →
  List_CanRead lst u db = inr true →
  ∃ db',
    TaskAssginee_Create la db = (None, db') ∧
    task_assignees db' =
      task_assignees db ++ [mkTaskAssginee (autoincr db) (ta_TaskID la) (ta_UserID la)] ∧
    ta_UserID la ∈ CurrentSet db' (ta_TaskID la).
Proof.
  intros Hlst Hu Hread. unfold TaskAssginee_Create, addNewAssigneeByID.
  rewrite Hlst, Hu, Hread. cbn [negb Engine_Insert ta_TaskID ta_UserID t_ID t_ListID].
  unfold updateListLastUpdated. eexists. split; [done|]. split; [done|].
  apply elem_of_CurrentSet. rewrite !exec_users. split.
  - exists (mkTaskAssginee (autoincr db) (ta_TaskID la) (ta_UserID la)).
    split; [|done]. cbn. apply elem_of_app. right.
    by apply list_elem_of_singleton.
  - unfold GetUserByID in Hu.
    destruct (first_row _ (users db)) as [u'|] eqn:E; [|done].
    exists u'. by apply first_row_Some in E.
Qed.

Lemma single_add_inserts_row_witness :
  ∃ db',
    TaskAssginee_Create (mkTaskAssginee 0 10 3) (store [(10, 1)]) = (None, db') ∧
    task_assignees db' = [mkTaskAssginee 1 10 1; mkTaskAssginee 2 10 3] ∧
    3 ∈ CurrentSet db' 10.
Proof.
  apply (single_add_inserts_row (mkTaskAssginee 0 10 3) (store [(10, 1)])
           (mkList 100 0) carol); reflexivity.
Defined.

(** A single add that is refused has written nothing.  When the lookup of
    the task's list fails, or the list is found and the lookup of the user
    or the access check fails, [TaskAssginee.Create] returns the error of
    that lookup or check and the store is as it was: all of them come
    before the insert.  (Nothing is said about an error of the insert or of
    the update of the marker, which come after a write.) *)
Theorem single_add_refused_writes_nothing la db err :
  GetListSimplByTaskID (ta_TaskID la) db = inl err ∨
  (∃ lst, GetListSimplByTaskID (ta_TaskID la) db = inr lst ∧
          canAssign db lst (ta_UserID la) = Some err) →
  TaskAssginee_Create la db = (Some err, db).
Proof.
  unfold TaskAssginee_Create. intros [Hlst|(lst & Hlst & Hcheck)]; rewrite Hlst.
  - done.
  - by rewrite addNewAssigneeByID_canAssign, Hcheck.
Qed.

Lemma single_add_refused_writes_nothing_witness :
  TaskAssginee_Create (mkTaskAssginee 0 10 9) (store [(10, 1)])
  = (Some (ErrNotFound Principal 9), store [(10, 1)]).
Proof.
  apply (single_add_refused_writes_nothing (mkTaskAssginee 0 10 9) (store [(10, 1)])).
  right. exists (mkList 100 0). split; reflexivity.
Defined.

(** The single add hands [addNewAssigneeByID] the task [&Task{ID: la.TaskID}],
    whose [ListID] is zero.  The update of the marker therefore names list
    0: whatever the result, the marker of every list with another
    identifier -- the list of the task among them -- is what it was. *)
Theorem single_add_skips_list_marker la db r db' :
  TaskAssginee_Create la db = (r, db') →
  (∀ l, SUpdateList l ∈ written db db' → l = 0) ∧
  (∀ l, l ≠ 0 → marker db' l = marker db l).
Proof.
  unfold TaskAssginee_Create.
  destruct (GetListSimplByTaskID _ db) as [e|lst].
  { intros [_ <-]%pair_equal_spec. rewrite written_refl.
    split; [by intros l ?%elem_of_nil | done]. }
  rewrite addNewAssigneeByID_canAssign.
  destruct (canAssign db lst _).
  { intros [_ <-]%pair_equal_spec. rewrite written_refl.
    split; [by intros l ?%elem_of_nil | done]. }
  intros [_ <-]%pair_equal_spec. cbn [t_ID t_ListID]. unfold assign. split.
  - intros l. erewrite written_app.
    2:{ rewrite !exec_statements, <-(assoc_L (++)). done. }
    intros [?|[?|?%elem_of_nil]%elem_of_cons]%elem_of_cons; [done|congruence|done].
  - intros l Hl. rewrite !marker_exec_other; [done|done|congruence].
Qed.

Lemma single_add_skips_list_marker_witness :
  ∃ db',
    TaskAssginee_Create (mkTaskAssginee 0 10 3) (store [(10, 1)]) = (None, db') ∧
    marker db' 100 = marker (store [(10, 1)]) 100.
Proof.
  eexists. split; [reflexivity|].
  apply (single_add_skips_list_marker (mkTaskAssginee 0 10 3) (store [(10, 1)])
           _ _ eq_refl). lia.
Defined.

(** ** The single remove *)

(** The table after the delete statement of [TaskAssginee.Delete], when
    both identifiers are given. *)
Lemma Engine_Delete_pair tid uid db :
  tid ≠ 0 → uid ≠ 0 →
  Engine_Delete [] (mkTaskAssginee 0 tid uid) db
  = (None, exec (SDelete [CTaskID tid; CUserID uid]) db) ∧
  task_assignees (exec (SDelete [CTaskID tid; CUserID uid]) db)
  = filter (λ r, ¬ (ta_TaskID r = tid ∧ ta_UserID r = uid)) (task_assignees db).
Proof.
  intros Ht Hu. split.
  - unfold Engine_Delete, beanConds. cbn [ta_ID ta_TaskID ta_UserID].
    by rewrite decide_True, !decide_False by done.
  - cbn [exec task_assignees]. apply list_filter_iff. intros r. cbn.
    rewrite andb_true_r, <-bool_decide_and, bool_decide_eq_false. done.
Qed.

Lemma updateListByTaskID_found tid db db1 t :
  GetTaskByIDSimple tid db = inr t → tasks db1 = tasks db →
  updateListByTaskID tid db1 = (None, exec (SUpdateList (t_ListID t)) db1).
Proof.
  unfold updateListByTaskID, GetTaskByIDSimple. intros Ht ->.
  by destruct (first_row _ (tasks db)); simplify_eq.
Qed.

(** A single remove with both identifiers given, for a task that exists,
    returns [nil] and deletes every row of the pair and no other row; the
    user is then no current assignee of the task. *)
Theorem single_remove_deletes_pair la db t :
  GetTaskByIDSimple (ta_TaskID la) db = inr t →
  ta_TaskID la ≠ 0 → ta_UserID la ≠ 0 →
  ∃ db',
    TaskAssginee_Delete la db = (None, db') ∧
    task_assignees db' =
      filter (λ r, ¬ (ta_TaskID r = ta_TaskID la ∧ ta_UserID r = ta_UserID la))
             (task_assignees db) ∧
    ta_UserID la ∉ CurrentSet db' (ta_TaskID la).
Proof.
  intros Ht Htid Huid. unfold TaskAssginee_Delete.
  destruct (Engine_Delete_pair (ta_TaskID la) (ta_UserID la) db Htid Huid)
    as [-> Hrows].
  rewrite (updateListByTaskID_found _ db _ t Ht) by apply exec_tasks.
  eexists. split; [done|]. split; [exact Hrows|].
  rewrite CurrentSet_touch.
  intros [(r & Hr & Hrt & Hru) _]%elem_of_CurrentSet.
  rewrite Hrows in Hr. apply list_elem_of_filter in Hr as [Hr _]. by apply Hr.
Qed.

Lemma single_remove_deletes_pair_witness :
  ∃ db',
    TaskAssginee_Delete (mkTaskAssginee 0 10 1) (store [(10, 1); (10, 2); (11, 1)])
      = (None, db') ∧
    task_assignees db' = [mkTaskAssginee 2 10 2; mkTaskAssginee 3 11 1].
Proof.
  destruct (single_remove_deletes_pair (mkTaskAssginee 0 10 1)
              (store [(10, 1); (10, 2); (11, 1)]) (mkTask 10 100 []))
    as (db' & Hdel & Hrows & _); [reflexivity | cbn; lia | cbn; lia |].
  exists db'. split; [exact Hdel|]. rewrite Hrows. reflexivity.
Defined.

(** Removing the same pair twice: the second remove succeeds as well and
    finds nothing to delete, so the table stays as the first remove left
    it. *)
Theorem single_remove_twice la db t r1 db1 r2 db2 :
  GetTaskByIDSimple (ta_TaskID la) db = inr t →
  ta_TaskID la ≠ 0 → ta_UserID la ≠ 0 →
  TaskAssginee_Delete la db = (r1, db1) →
  TaskAssginee_Delete la db1 = (r2, db2) →
  r1 = None ∧ r2 = None ∧ task_assignees db2 = task_assignees db1.
Proof.
  intros Ht Htid Huid H1 H2.
  destruct (single_remove_deletes_pair la db t Ht Htid Huid) as (d1 & Hd1 & Hrows1 & _).
  rewrite Hd1 in H1. apply pair_equal_spec in H1 as [<- <-].
  assert (GetTaskByIDSimple (ta_TaskID la) d1 = inr t) as Ht1.
  { unfold TaskAssginee_Delete in Hd1.
    destruct (Engine_Delete_pair (ta_TaskID la) (ta_UserID la) db Htid Huid) as [Hdel _].
    rewrite Hdel, (updateListByTaskID_found _ db _ t Ht) in Hd1 by apply exec_tasks.
    apply (f_equal snd) in Hd1. cbn [snd] in Hd1. subst d1.
    unfold GetTaskByIDSimple in *. by rewrite !exec_tasks. }
  destruct (single_remove_deletes_pair la d1 t Ht1 Htid Huid) as (d2 & Hd2 & Hrows2 & _).
  rewrite Hd2 in H2. apply pair_equal_spec in H2 as [<- <-].
  split; [done|]. split; [done|]. rewrite Hrows2. apply filter_all.
  rewrite Hrows1. apply Forall_forall. intros r Hr.
  by apply list_elem_of_filter in Hr as [? _].
Qed.

Lemma single_remove_twice_witness :
  ∃ r1 db1 r2 db2,
    TaskAssginee_Delete (mkTaskAssginee 0 10 1) (store [(10, 1); (10, 2)]) = (r1, db1) ∧
    TaskAssginee_Delete (mkTaskAssginee 0 10 1) db1 = (r2, db2) ∧
    r1 = None ∧ r2 = None ∧ task_assignees db2 = task_assignees db1.
Proof.
  do 4 eexists. split; [reflexivity|]. split; [reflexivity|].
  apply (single_remove_twice (mkTaskAssginee 0 10 1) (store [(10, 1); (10, 2)])
           (mkTask 10 100 [])); [reflexivity | cbn; lia | cbn; lia | reflexivity..].
Defined.




(** A bean field that is zero gives no condition.  A single remove with a
    task but with user 0 is therefore a delete on the task alone: for a
    task that exists it returns [nil] and removes every assignee of the
    task, and no row of another task. *)
Theorem single_remove_zero_user la db t :
  GetTaskByIDSimple (ta_TaskID la) db = inr t →
  ta_TaskID la ≠ 0 → ta_UserID la = 0 →
  ∃ db',
    TaskAssginee_Delete la db = (None, db') ∧
    task_assignees db' = filter (λ r, ta_TaskID r ≠ ta_TaskID la) (task_assignees db) ∧
    CurrentSet db' (ta_TaskID la) = [].
Proof.
  intros Ht Htid Huid. unfold TaskAssginee_Delete, Engine_Delete, beanConds.
  cbn [ta_ID ta_TaskID ta_UserID]. rewrite Huid.
  rewrite !decide_True, decide_False by done. cbn [app].
  rewrite (updateListByTaskID_found _ db _ t Ht) by apply exec_tasks.
  eexists. split; [done|]. split.
  - cbn [exec task_assignees]. apply list_filter_iff. intros r.
    by rewrite <-not_true_iff_false, matches_task.
  - rewrite CurrentSet_touch. apply CurrentSet_delete_task.
Qed.

Lemma single_remove_zero_user_witness :
  ∃ db',
    TaskAssginee_Delete (mkTaskAssginee 0 10 0) (store [(10, 1); (11, 1); (10, 2)])
      = (None, db') ∧
    task_assignees db' = [mkTaskAssginee 2 11 1].
Proof.
  destruct (single_remove_zero_user (mkTaskAssginee 0 10 0)
              (store [(10, 1); (11, 1); (10, 2)]) (mkTask 10 100 []))
    as (db' & Hdel & Hrows & _); [reflexivity | cbn; lia | reflexivity |].
  exists db'. split; [exact Hdel|]. rewrite Hrows. reflexivity.
Defined.



(** ** The bulk replace, whatever its result *)

(** The store a bulk replace with a non-empty desired list leaves behind:
    after the delete either the list is not found, or the additions run up
    to the first principal that does not pass the access check. *)
Lemma reconcile_shape tid lid des db r db' :
  des ≠ [] →
  reconcile tid lid des db = (r, db') →
  let cur := CurrentSet db tid in
  let dbd := removeAll tid (toRemove cur des) db in
  (∃ err, List_GetSimpleByID (mkList lid 0) db = inl err ∧ r = Some err ∧ db' = dbd) ∨
  (∃ lst done rest,
     List_GetSimpleByID (mkList lid 0) db = inr lst ∧
     toAdd cur des = done ++ rest ∧
     Forall (λ k, canAssign db lst k = None) done ∧
     match r with
     | None => rest = [] ∧ db' = exec (SUpdateList lid) (assignAll tid lid done dbd)
     | Some err =>
         (∃ k rest', rest = k :: rest' ∧ canAssign db lst k = Some err) ∧
         db' = assignAll tid lid done dbd
     end).
Proof.
  intros Hdes Hrun cur dbd. unfold reconcile in Hrun.
  destruct des as [|d des]; [done|]. fold cur dbd in Hrun.
  assert (List_GetSimpleByID (mkList lid 0) dbd
          = List_GetSimpleByID (mkList lid 0) db) as Hsame.
  { unfold List_GetSimpleByID, dbd. by rewrite removeAll_lists. }
  assert (∀ lst k, canAssign dbd lst k = canAssign db lst k) as Hcheck.
  { intros lst k. apply canAssign_frame; unfold dbd.
    - apply removeAll_users.
    - apply removeAll_can_read. }
  rewrite Hsame in Hrun.
  destruct (List_GetSimpleByID (mkList lid 0) db) as [e|lst].
  { left. exists e. apply pair_equal_spec in Hrun as [<- <-]. done. }
  right. destruct (addRun tid lid lst _ dbd) as [r0 db2] eqn:Hadd.
  apply addRun_inv in Hadd as (done & rest & Hsplit & -> & Hdone & Hr0).
  exists lst, done, rest. split; [done|]. split; [done|]. split.
  { eapply Forall_impl; [exact Hdone|]. intros k. cbv beta. by rewrite Hcheck. }
  destruct r0 as [e|]; apply pair_equal_spec in Hrun as [<- <-].
  - split; [|done]. destruct Hr0 as (k & rest' & -> & Hk).
    exists k, rest'. by rewrite <-Hcheck.
  - done.
Qed.

Lemma marker_assignAll_other tid lid done db l :
  l ≠ lid → marker (assignAll tid lid done db) l = marker db l.
Proof.
  intros Hl. revert db. induction done as [|k done IH]; intros db; [done|].
  rewrite assignAll_cons, IH. unfold assign.
  rewrite !marker_exec_other; [done|done|congruence].
Qed.

(** The rows of other tasks are out of reach of [reconcile]. *)
Lemma reconcile_other_tasks tid lid des db r db' row :
  reconcile tid lid des db = (r, db') →
  ta_TaskID row ≠ tid →
  row ∈ task_assignees db' ↔ row ∈ task_assignees db.
Proof.
  intros Hrun Hrow. destruct (decide (des = [])) as [->|Hdes].
  - unfold reconcile in Hrun. destruct (CurrentSet db tid); store_of Hrun; [done|].
    rewrite elem_of_exec_delete, <-not_true_iff_false, matches_task. tauto.
  - assert (∀ done, row ∈ task_assignees
              (assignAll tid lid done
                 (removeAll tid (toRemove (CurrentSet db tid) des) db))
            ↔ row ∈ task_assignees db) as Hrows.
    { intros done.
      destruct (assignAll_task_assignees tid lid done
                  (removeAll tid (toRemove (CurrentSet db tid) des) db))
        as (news & -> & _ & Hnews).
      rewrite Forall_forall in Hnews.
      rewrite elem_of_app, elem_of_removeAll. split; [|tauto].
      intros [[? _]|Hin%Hnews]; done. }
    apply reconcile_shape in Hrun as [(e & _ & _ & ->)|(lst & dn & rest & _ & _ & _ & Hr)];
      [| |done].
    + rewrite elem_of_removeAll. tauto.
    + destruct r as [e|].
      * destruct Hr as [_ ->]. apply Hrows.
      * destruct Hr as [_ ->]. cbn [exec task_assignees]. apply Hrows.
Qed.

(** A bulk replace on one task leaves the assignments of every other task
    as they are, whether it succeeds or fails. *)
Theorem bulk_replace_other_tasks ba db r db' row :
  BulkAssignees_Create ba db = (r, db') →
  ta_TaskID row ≠ ba_TaskID ba →
  row ∈ task_assignees db' ↔ row ∈ task_assignees db.
Proof.
  rewrite BulkAssignees_Create_reconcile.
  destruct (GetTaskByIDSimple _ db) as [e|t] eqn:Ht.
  - by intros [_ <-]%pair_equal_spec.
  - apply GetTaskByIDSimple_inr in Ht as [_ <-]. apply reconcile_other_tasks.
Qed.

Lemma bulk_replace_other_tasks_witness :
  ∃ r db',
    BulkAssignees_Create (mkBulkAssignees [dave] 10) (store [(10, 1); (11, 1)]) = (r, db') ∧
    (mkTaskAssginee 2 11 1 ∈ task_assignees db' ↔
     mkTaskAssginee 2 11 1 ∈ task_assignees (store [(10, 1); (11, 1)])).
Proof.
  do 2 eexists. split; [reflexivity|].
  apply (bulk_replace_other_tasks (mkBulkAssignees [dave] 10)
           (store [(10, 1); (11, 1)]) _ _ _ eq_refl). cbn. lia.
Defined.

(** A bulk replace changes no user, no task and no access right, and the
    only marker it can change is that of the list of its task. *)
Theorem bulk_replace_frame ba db r db' :
  BulkAssignees_Create ba db = (r, db') →
  users db' = users db ∧ tasks db' = tasks db ∧ can_read db' = can_read db ∧
  (∀ t l, GetTaskByIDSimple (ba_TaskID ba) db = inr t → l ≠ t_ListID t →
          marker db' l = marker db l).
Proof.
  rewrite BulkAssignees_Create_reconcile.
  destruct (GetTaskByIDSimple _ db) as [e|t] eqn:Ht.
  { by intros [_ <-]%pair_equal_spec. }
  intros Hrun. destruct (decide (u_ID <$> ba_Assignees ba = [])) as [Hdes|Hdes].
  - rewrite Hdes in Hrun. unfold reconcile in Hrun.
    destruct (CurrentSet db (t_ID t)); store_of Hrun; [by repeat split|].
    by repeat split.
  - apply reconcile_shape in Hrun
      as [(e & _ & _ & ->)|(lst & dn & rest & _ & _ & _ & Hr)]; [| |done].
    + rewrite removeAll_users, removeAll_tasks, removeAll_can_read.
      repeat split. intros ? l _ _. apply marker_removeAll.
    + assert (db' = assignAll (t_ID t) (t_ListID t) dn
                      (removeAll (t_ID t)
                         (toRemove (CurrentSet db (t_ID t)) (u_ID <$> ba_Assignees ba)) db)
              ∨ db' = exec (SUpdateList (t_ListID t))
                      (assignAll (t_ID t) (t_ListID t) dn
                         (removeAll (t_ID t)
                            (toRemove (CurrentSet db (t_ID t)) (u_ID <$> ba_Assignees ba)) db)))
        as [-> | ->] by (destruct r; tauto).
      * rewrite assignAll_users, assignAll_tasks, assignAll_can_read.
        rewrite removeAll_users, removeAll_tasks, removeAll_can_read.
        repeat split. intros ? l [= <-] Hl.
        by rewrite marker_assignAll_other, marker_removeAll.
      * rewrite exec_users, exec_tasks, exec_can_read.
        rewrite assignAll_users, assignAll_tasks, assignAll_can_read.
        rewrite removeAll_users, removeAll_tasks, removeAll_can_read.
        repeat split. intros ? l [= <-] Hl.
        rewrite marker_exec_other by congruence.
        by rewrite marker_assignAll_other, marker_removeAll.
Qed.

Lemma bulk_replace_frame_witness :
  ∃ r db',
    BulkAssignees_Create (mkBulkAssignees [bob] 10) (store [(10, 1)]) = (r, db') ∧
    users db' = users (store [(10, 1)]) ∧ marker db' 7 = marker (store [(10, 1)]) 7.
Proof.
  do 2 eexists. split; [reflexivity|].
  destruct (bulk_replace_frame (mkBulkAssignees [bob] 10) (store [(10, 1)]) _ _ eq_refl)
    as (Hu & _ & _ & Hm).
  split; [exact Hu|]. apply (Hm (mkTask 10 100 [])); [reflexivity | cbn; lia].
Defined.

(** When a bulk replace succeeds.  For a task that exists the call returns
    [nil] exactly when the desired list is empty, or the list of the task
    exists and every principal that is to be added exists and may read it.
    A principal that is assigned already is kept without a check. *)
Theorem bulk_replace_success_iff ba db t :
  GetTaskByIDSimple (ba_TaskID ba) db = inr t →
  let cur := CurrentSet db (t_ID t) in
  let des := u_ID <$> ba_Assignees ba in
  (∃ db', BulkAssignees_Create ba db = (None, db')) ↔
  des = [] ∨
  ∃ lst, List_GetSimpleByID (mkList (t_ListID t) 0) db = inr lst ∧
         ∀ k, k ∈ toAdd cur des → canAssign db lst k = None.
Proof.
  intros Ht cur des. rewrite BulkAssignees_Create_reconcile, Ht. fold des. split.
  - intros [db' Hrun]. destruct (decide (des = [])) as [?|Hdes]; [by left|right].
    apply reconcile_success in Hrun as (lst & Hlst & Hpass & _); [|done].
    exists lst. split; [done|]. by apply Forall_forall.
  - intros [Hdes|(lst & Hlst & Hpass)].
    + rewrite Hdes. unfold reconcile. destruct (CurrentSet db (t_ID t)); eauto.
    + unfold reconcile. fold cur. destruct des as [|d des'] eqn:Hdes.
      { destruct cur; eauto. }
      rewrite <-Hdes in *.
      set (dbd := removeAll (t_ID t) (toRemove cur des) db).
      assert (List_GetSimpleByID (mkList (t_ListID t) 0) dbd = inr lst) as ->.
      { unfold List_GetSimpleByID, dbd in *. by rewrite removeAll_lists. }
      rewrite addRun_all_pass; [by eauto|].
      apply Forall_forall. intros k Hk.
      rewrite (canAssign_frame db dbd); [by apply Hpass|..]; unfold dbd.
      * apply removeAll_users.
      * apply removeAll_can_read.
Qed.

Lemma bulk_replace_success_iff_witness :
  ∃ db', BulkAssignees_Create (mkBulkAssignees [dave; bob] 10) (store [(10, 4)])
         = (None, db').
Proof.
  apply (bulk_replace_success_iff (mkBulkAssignees [dave; bob] 10) (store [(10, 4)])
           (mkTask 10 100 []) eq_refl).
  right. exists (mkList 100 0). split; [reflexivity|].
  intros k Hk. vm_compute in Hk. apply list_elem_of_singleton in Hk. by subst k.
Defined.

(** Which principal a refused bulk replace names.  When the call returns
    [ErrUserDoesNotHaveAccessToList{l, k}] or the [ErrNotFound] of the
    principal [k], then [k] is the first principal, in the order of the
    desired list, that is not assigned yet and does not pass the lookup and
    the access check; the error is that of its check, and rows have been
    inserted for exactly the principals of [toAdd] that come before it. *)
Theorem bulk_replace_refused_principal ba db err db' t k :
  BulkAssignees_Create ba db = (Some err, db') →
  GetTaskByIDSimple (ba_TaskID ba) db = inr t →
  (∃ l, err = ErrUserDoesNotHaveAccessToList l k) ∨ err = ErrNotFound Principal k →
  let cur := CurrentSet db (t_ID t) in
  let des := u_ID <$> ba_Assignees ba in
  ∃ lst before rest,
    List_GetSimpleByID (mkList (t_ListID t) 0) db = inr lst ∧
    toAdd cur des = before ++ k :: rest ∧
    (∀ k', k' ∈ before → canAssign db lst k' = None) ∧
    canAssign db lst k = Some err ∧
    inserted (t_ID t) (written db db') = before.
Proof.
  intros Hrun Ht Herr cur des. rewrite BulkAssignees_Create_reconcile, Ht in Hrun.
  fold des in Hrun. assert (des ≠ []) as Hdes.
  { intros Hdes. rewrite Hdes in Hrun. unfold reconcile in Hrun.
    by destruct (CurrentSet db (t_ID t)). }
  apply reconcile_shape in Hrun
    as [(e & Hlst & [= <-] & ->)|(lst & dn & rest & Hlst & Hsplit & Hdn & Hk & ->)];
    [| |done]; fold cur.
  - (* the list was not found: the error is that of the container *)
    unfold List_GetSimpleByID in Hlst.
    destruct (first_row _ (lists db)); [done|]. injection Hlst as <-.
    by destruct Herr as [[l ?]|?].
  - destruct Hk as (k0 & rest' & -> & Hk).
    assert (k0 = k) as ->.
    { unfold canAssign, GetUserByID in Hk.
      destruct (first_row _ (users db)) as [u|].
      - destruct (can_read db (l_ID lst) (u_ID u)); [done|].
        injection Hk as <-. by destruct Herr as [[l [= _ ->]]|?].
      - injection Hk as <-. by destruct Herr as [[l ?]|[= ->]]. }
    exists lst, dn, rest'. split; [done|]. split; [done|].
    split; [by apply Forall_forall|]. split; [done|].
    destruct (written_partial db (t_ID t) (t_ListID t) dn (toRemove cur des))
      as (dels & -> & Hins & _).
    by rewrite inserted_app, Hins, inserted_assign.
Qed.

Lemma bulk_replace_refused_principal_witness :
  ∃ db' before rest,
    BulkAssignees_Create (mkBulkAssignees [alice; bob; dave; carol] 10) (store [(10, 1)])
      = (Some (ErrUserDoesNotHaveAccessToList 100 4), db') ∧
    toAdd [1] [1; 2; 4; 3] = before ++ 4 :: rest ∧
    inserted 10 (written (store [(10, 1)]) db') = before.
Proof.
  eexists.
  destruct (bulk_replace_refused_principal
              (mkBulkAssignees [alice; bob; dave; carol] 10) (store [(10, 1)])
              _ _ (mkTask 10 100 []) 4 eq_refl eq_refl)
    as (lst & before & rest & _ & Hsplit & _ & _ & Hins).
  - left. by exists 100.
  - exists before, rest.
    split; [reflexivity|]. split; [exact Hsplit | exact Hins].
Defined.

(** ** The receiver of [updateTaskAssignees] *)

(** [updateTaskAssignees] keeps the identifier and the list of its
    receiver.  After a success the field [Assignees] of the receiver is the
    desired list.  After a call that is refused -- with [ErrNotFound] or
    [ErrUserDoesNotHaveAccessToList], which are returned before
    [setTaskAssignees] is reached -- it is the list of the assignees that
    were loaded at the start of the call.  Nothing is said for an error of
    a statement of the store.  This holds for every session. *)
Theorem updateTaskAssignees_receiver t s assignees db r t' s' db' :
  updateTaskAssignees t s assignees db = (r, t', s', db') →
  t_ID t' = t_ID t ∧ t_ListID t' = t_ListID t ∧
  match r with
  | None => t_Assignees t' = assignees
  | Some (ErrNotFound _ _) | Some (ErrUserDoesNotHaveAccessToList _ _) =>
      t_Assignees t' = wu_User <$> getRawTaskAssigneesForTasks [t_ID t] db
  | Some ErrNeedDeletedCond => True
  end.
Proof.
  unfold updateTaskAssignees. cbn [t_ID t_ListID t_Assignees].
  set (cur := wu_User <$> getRawTaskAssigneesForTasks [t_ID t] db).
  destruct assignees as [|u des].
  - destruct cur as [|c cur']; cbn.
    + by intros [= <- <- <- <-].
    + unfold Session_Delete. cbn.
      destruct (isAutoCommit s); by intros [= <- <- <- <-].
  - cbn [length]. rewrite !bool_decide_false by done. cbn [andb].
    rewrite oldLoop_eq.
    set (del := filter _ (u_ID <$> cur)).
    assert (∀ s0 db0,
      match List_GetSimpleByID (mkList (t_ListID t) 0) db0 with
      | inl err => (Some err, mkTask (t_ID t) (t_ListID t) cur, s0, db0)
      | inr lst =>
          match addLoop (mkTask (t_ID t) (t_ListID t) cur) lst
                        (newAssigneesMap cur) (u :: des) db0 with
          | (Some err, db1) =>
              (Some err, mkTask (t_ID t) (t_ListID t) cur, s0, db1)
          | (None, db1) =>
              let t1 := setTaskAssignees (mkTask (t_ID t) (t_ListID t) cur)
                                         (u :: des) in
              let '(err, db2) :=
                updateListLastUpdated (mkList (t_ListID t1) 0) db1 in
              (err, t1, s0, db2)
          end
      end = (r, t', s', db') →
      t_ID t' = t_ID t ∧ t_ListID t' = t_ListID t ∧
      match r with
      | None => t_Assignees t' = u :: des
      | Some (ErrNotFound _ _) | Some (ErrUserDoesNotHaveAccessToList _ _) =>
          t_Assignees t' = cur
      | Some ErrNeedDeletedCond => True
      end) as Hrest.
    { intros s0 db0.
      destruct (List_GetSimpleByID _ db0) as [e|lst];
        [intros [= <- <- <- <-]; by destruct e|].
      destruct (addLoop _ _ _ _ db0) as [[e|] db1];
        [intros [= <- <- <- <-]; by destruct e|].
      cbn. by intros [= <- <- <- <-]. }
    destruct (bool_decide (0 < length del)%nat); [|apply Hrest].
    unfold Session_Delete. rewrite beanConds_emptyBean. cbn [app].
    destruct (isAutoCommit s); apply Hrest.
Qed.

Lemma updateTaskAssignees_receiver_witness :
  ∃ t' s' db',
    updateTaskAssignees (mkTask 10 100 []) NewSession [bob; dave] (store [(10, 1)])
      = (Some (ErrUserDoesNotHaveAccessToList 100 4), t', s', db') ∧
    t_ID t' = 10 ∧ t_ListID t' = 100 ∧ t_Assignees t' = [alice].
Proof.
  do 3 eexists. split; [reflexivity|].
  exact (updateTaskAssignees_receiver (mkTask 10 100 []) NewSession [bob; dave]
           (store [(10, 1)]) _ _ _ _ eq_refl).
Defined.

(** ** Unique pairs *)

Lemma pairs_news tid (news : list TaskAssginee) :
  Forall (λ r, ta_TaskID r = tid) news →
  (λ r, (ta_TaskID r, ta_UserID r)) <$> news = (λ k, (tid, k)) <$> (ta_UserID <$> news).
Proof.
  induction 1 as [|r news Hr _ IH]; [done|]. cbn. by rewrite Hr, IH.
Qed.

(** The bulk replace keeps the pairs of the table unique, as long as the
    desired list names no principal twice: when no (task, user) pair has
    two rows before the call, none has two rows after it, whether the call
    succeeds or fails. *)
Theorem bulk_replace_keeps_pairs_unique ba db r db' :
  NoDup (pairs db) →
  NoDup (u_ID <$> ba_Assignees ba) →
  BulkAssignees_Create ba db = (r, db') →
  NoDup (pairs db').
Proof.
  intros Hdb Hdes. rewrite BulkAssignees_Create_reconcile.
  destruct (GetTaskByIDSimple _ db) as [e|t]; [by intros [_ <-]%pair_equal_spec|].
  set (des := u_ID <$> ba_Assignees ba) in *. intros Hrun.
  assert (∀ del_db, task_assignees del_db `sublist_of` task_assignees db →
                    NoDup (pairs del_db)) as Hsub.
  { intros d Hd. unfold pairs. eapply sublist_NoDup; [exact Hdb|]. by rewrite Hd. }
  destruct (decide (des = [])) as [Hnil|Hnil].
  { rewrite Hnil in Hrun. unfold reconcile in Hrun.
    destruct (CurrentSet db (t_ID t)); store_of Hrun; [done|].
    apply Hsub. cbn [exec task_assignees]. apply sublist_filter. }
  set (cur := CurrentSet db (t_ID t)).
  set (dbd := removeAll (t_ID t) (toRemove cur des) db).
  assert (task_assignees dbd `sublist_of` task_assignees db) as Hdbd.
  { unfold dbd. rewrite removeAll_task_assignees. apply sublist_filter. }
  assert (∀ dn rest, toAdd cur des = dn ++ rest →
                     Forall (λ k, ∃ u, u ∈ users db ∧ u_ID u = k) dn →
                     NoDup (pairs (assignAll (t_ID t) (t_ListID t) dn dbd))) as Hadd.
  { intros dn rest Hsplit Husers. unfold pairs.
    destruct (assignAll_task_assignees (t_ID t) (t_ListID t) dn dbd)
      as (news & -> & Hnews & Htid).
    rewrite fmap_app, (pairs_news _ _ Htid), Hnews. apply NoDup_app.
    assert (NoDup dn) as Hdn.
    { eapply (sublist_NoDup _ (toAdd cur des)).
      - unfold toAdd. by apply NoDup_filter.
      - rewrite Hsplit. apply sublist_inserts_r. done. }
    split; [by apply Hsub|]. split.
    - intros p (row & -> & Hrow)%list_elem_of_fmap (k & [= Ht Hk] & Hin)%list_elem_of_fmap.
      assert (k ∈ toAdd cur des) as Hk' by (rewrite Hsplit, elem_of_app; by left).
      apply elem_of_toAdd in Hk' as [Hk' _]. apply Hk', elem_of_CurrentSet.
      rewrite Forall_forall in Husers. split; [|by apply Husers].
      exists row. split; [by eapply elem_of_sublist|done].
    - apply NoDup_fmap_2; [|done]. by intros ?? [= ->]. }
  apply reconcile_shape in Hrun
    as [(e & _ & _ & ->)|(lst & dn & rest & _ & Hsplit & Hdn & Hr)]; [| |done].
  - by apply Hsub.
  - assert (Forall (λ k, ∃ u, u ∈ users db ∧ u_ID u = k) dn) as Husers.
    { eapply Forall_impl; [exact Hdn|]. intros k. apply canAssign_None_user. }
    fold cur dbd in Hr. destruct r as [e|]; destruct Hr as [_ ->].
    + by eapply Hadd.
    + unfold pairs. cbn [exec task_assignees]. by eapply Hadd.
Qed.

Lemma bulk_replace_keeps_pairs_unique_witness :
  ∃ r db',
    BulkAssignees_Create (mkBulkAssignees [bob; carol] 10) (store [(10, 1); (11, 2)])
      = (r, db') ∧ NoDup (pairs db').
Proof.
  do 2 eexists. split; [reflexivity|].
  eapply (bulk_replace_keeps_pairs_unique (mkBulkAssignees [bob; carol] 10)
            (store [(10, 1); (11, 2)])); [| |reflexivity].
  - vm_compute. repeat constructor; rewrite ?elem_of_cons, ?elem_of_nil; intros H;
      repeat destruct H as [H|H]; congruence.
  - vm_compute. repeat constructor; rewrite ?elem_of_cons, ?elem_of_nil; intros H;
      repeat destruct H as [H|H]; congruence.
Defined.

(** ** Loading the assignees of tasks *)

Lemma join_one_task (r : TaskAssginee) (us : list User) t :
  filter (λ a, wu_TaskID a = t)
         (us ≫= λ u, [mkTaskAssigneeWithUser (ta_TaskID r) u])
  = if decide (ta_TaskID r = t)
    then us ≫= λ u, [mkTaskAssigneeWithUser (ta_TaskID r) u] else [].
Proof.
  induction us as [|u us IH]; [by destruct (decide _)|].
  rewrite bind_cons, filter_app, IH. cbn [app].
  rewrite filter_cons, filter_nil. cbn [wu_TaskID].
  by destruct (decide (ta_TaskID r = t)).
Qed.

(** Loading for several tasks and keeping the entries of one of them is
    loading for that task alone, as [BulkAssignees.Create] and
    [updateTaskAssignees] do. *)
Theorem getRawTaskAssigneesForTasks_one_of taskIDs db t :
  t ∈ taskIDs →
  filter (λ a, wu_TaskID a = t) (getRawTaskAssigneesForTasks taskIDs db)
  = getRawTaskAssigneesForTasks [t] db.
Proof.
  intros Ht. unfold getRawTaskAssigneesForTasks.
  induction (task_assignees db) as [|r rows IH]; [done|].
  rewrite !filter_cons.
  destruct (decide (ta_TaskID r ∈ taskIDs)) as [Hin|Hin];
    destruct (decide (ta_TaskID r ∈ [t])) as [Hr|Hr].
  - rewrite !bind_cons, filter_app, IH, join_one_task.
    apply list_elem_of_singleton in Hr. by rewrite decide_True.
  - rewrite bind_cons, filter_app, IH, join_one_task.
    rewrite decide_False; [done|]. intros Heq. apply Hr. by apply list_elem_of_singleton.
  - apply list_elem_of_singleton in Hr. congruence.
  - exact IH.
Qed.

Lemma getRawTaskAssigneesForTasks_one_of_witness :
  filter (λ a, wu_TaskID a = 10)
         (getRawTaskAssigneesForTasks [10; 11] (store [(10, 1); (11, 2); (10, 3)]))
  = getRawTaskAssigneesForTasks [10] (store [(10, 1); (11, 2); (10, 3)]).
Proof.
  apply (getRawTaskAssigneesForTasks_one_of [10; 11]
           (store [(10, 1); (11, 2); (10, 3)]) 10).
  apply elem_of_cons. by left.
Defined.

(** ** Listing the assignees of a task *)

Section ReadAll_facts.
Variable getLimitFromPageIndex : Z → Z → Z * Z.
Variable sqlLike : string → string → bool.

Lemma elem_of_assigneesLike taskID search db u :
  u ∈ assigneesLike sqlLike taskID search db ↔
  u ∈ users db ∧ sqlLike (u_Username u) ("%" +:+ search +:+ "%") = true ∧
  ∃ r, r ∈ task_assignees db ∧ ta_TaskID r = taskID ∧ ta_UserID r = u_ID u.
Proof.
  unfold assigneesLike. rewrite list_elem_of_bind. split.
  - intros (r & [[Hid Hlike] Hu]%list_elem_of_filter & [Ht Hr]%list_elem_of_filter).
    eauto 6.
  - intros (Hu & Hlike & r & Hr & Ht & Hid). exists r.
    split; by apply list_elem_of_filter.
Qed.

(** [ReadAll] shows assignees only to a caller who may read the list of
    the task, and it shows only assignees of that task: when it returns a
    page, the list of the task was found and the caller may read it, and
    every user on the page is a user with a row for the task whose name is
    like the search pattern.  A caller who may not read the list gets
    [ErrGenericForbidden]. *)
Theorem ReadAll_access la a search page perPage db :
  (∀ res n total,
     TaskAssginee_ReadAll getLimitFromPageIndex sqlLike la a search page perPage db
       = inr (res, n, total) →
     (∃ lst, GetListSimplByTaskID (ta_TaskID la) db = inr lst ∧
             can_read db (l_ID lst) (u_ID a) = true) ∧
     ∀ u, u ∈ res →
          u ∈ users db ∧ sqlLike (u_Username u) ("%" +:+ search +:+ "%") = true ∧
          ∃ r, r ∈ task_assignees db ∧ ta_TaskID r = ta_TaskID la ∧
               ta_UserID r = u_ID u) ∧
  (∀ lst, GetListSimplByTaskID (ta_TaskID la) db = inr lst →
          can_read db (l_ID lst) (u_ID a) = false →
          TaskAssginee_ReadAll getLimitFromPageIndex sqlLike la a search page perPage db
            = inl ErrGenericForbidden).
Proof.
  unfold TaskAssginee_ReadAll, List_CanRead. split.
  - intros res n total.
    destruct (GetListSimplByTaskID _ db) as [e|lst]; [done|].
    destruct (can_read db (l_ID lst) (u_ID a)) eqn:Hcan; [|done]. cbn [negb].
    destruct (getLimitFromPageIndex page perPage) as [limit start].
    intros [= <- _ _]. split; [by exists lst|].
    intros u Hu. apply elem_of_assigneesLike.
    destruct (bool_decide (0 < limit)); [|done].
    unfold Limit in Hu. eapply elem_of_sublist; [exact Hu|].
    etrans; [apply sublist_take | apply sublist_drop].
  - intros lst -> Hcan. by rewrite Hcan.
Qed.

End ReadAll_facts.

Lemma ReadAll_access_witness :
  TaskAssginee_ReadAll (λ page perPage, (0, 0)) (λ v p, true)
    (mkTaskAssginee 0 10 0) dave "" 0 0 (store [(10, 1)])
  = inl ErrGenericForbidden.
Proof.
  apply (proj2 (ReadAll_access (λ page perPage, (0, 0)) (λ v p, true)
                  (mkTaskAssginee 0 10 0) dave "" 0 0 (store [(10, 1)]))
           (mkList 100 0)); reflexivity.
Defined.

(** ** The teams of a namespace *)

Section TeamNamespace_ReadAll_facts.
Variables (Namespace E : Type).
Variable GetNamespaceByID : Z → E + Namespace.
Variable Namespace_CanRead : Namespace → User → bool.

(** A user who may not read the namespace gets no team: the call returns
    [ErrNeedToHaveNamespaceReadAccess] with the identifier of the namespace
    and of the user.  And whenever the call returns teams, the namespace
    was found and the user may read it. *)
Theorem TeamNamespace_ReadAll_access tn user st :
  (∀ n, GetNamespaceByID (tn_NamespaceID tn) = inr n →
        Namespace_CanRead n user = false →
        TeamNamespace_ReadAll Namespace E GetNamespaceByID Namespace_CanRead tn user st
          = inl (ErrNeedToHaveNamespaceReadAccess (tn_NamespaceID tn) (u_ID user))) ∧
  (∀ all, TeamNamespace_ReadAll Namespace E GetNamespaceByID Namespace_CanRead tn user st
            = inr all →
          ∃ n, GetNamespaceByID (tn_NamespaceID tn) = inr n ∧
               Namespace_CanRead n user = true).
Proof.
  unfold TeamNamespace_ReadAll. split.
  - intros n -> Hcan. by rewrite Hcan.
  - intros all. destruct (GetNamespaceByID _) as [e|n]; [done|].
    destruct (Namespace_CanRead n user) eqn:Hcan; [|done]. eauto.
Qed.

Lemma links_of_team {A} (t t0 : Team) (links : list A) :
  filter (λ x, x = t0) (links ≫= λ _, [t])
  = if decide (t = t0) then links ≫= λ _, [t] else [].
Proof.
  induction links as [|l links IH]; [by destruct (decide _)|].
  rewrite bind_cons, filter_app, IH. cbn [app]. rewrite filter_cons, filter_nil.
  by destruct (decide (t = t0)).
Qed.

Lemma length_links {A} (t : Team) (links : list A) :
  length (links ≫= λ _, [t]) = length links.
Proof. induction links as [|l links IH]; [done|]. cbn. by rewrite IH. Qed.

(** The teams returned for a namespace are the teams shared with it: a
    team is in the result exactly when it is in [teams] and
    [team_namespaces] links it to the namespace of the receiver.  It is
    there once for every such link: a team that two rows share with the
    namespace is listed twice. *)
Theorem TeamNamespace_ReadAll_teams tn user st all :
  TeamNamespace_ReadAll Namespace E GetNamespaceByID Namespace_CanRead tn user st
    = inr all →
  (∀ t, t ∈ all ↔
        t ∈ teams st ∧
        ∃ l, l ∈ team_namespaces st ∧ tn_TeamID l = team_ID t ∧
             tn_NamespaceID l = tn_NamespaceID tn) ∧
  (NoDup (teams st) →
   ∀ t, t ∈ teams st →
        length (filter (λ x, x = t) all)
        = length (filter (λ l, tn_TeamID l = team_ID t ∧
                               tn_NamespaceID l = tn_NamespaceID tn)
                         (team_namespaces st))).
Proof.
  unfold TeamNamespace_ReadAll.
  destruct (GetNamespaceByID _) as [e|n]; [done|].
  destruct (Namespace_CanRead n user); [|done]. cbn [negb]. intros [= <-]. split.
  - intros t. rewrite list_elem_of_bind. split.
    + intros (t' & (l & Ht & Hl)%list_elem_of_bind & Ht').
      apply list_elem_of_singleton in Ht as ->.
      apply list_elem_of_filter in Hl as [[? ?] ?]. eauto 6.
    + intros (Ht & l & Hl & Hteam & Hns). exists t. split; [|done].
      apply list_elem_of_bind. exists l.
      split; [by apply list_elem_of_singleton | by apply list_elem_of_filter].
  - intros Hnodup t0. induction Hnodup as [|t ts Ht _ IH]; [by intros ?%elem_of_nil|].
    rewrite bind_cons, filter_app, length_app, links_of_team.
    intros [->|Hin]%elem_of_cons.
    + rewrite decide_True, length_links by done.
      rewrite (filter_none (λ x, x = t) (ts ≫= _)); [cbn; lia|].
      apply Forall_forall. intros x (t' & (l & Hx & _)%list_elem_of_bind & Ht')%list_elem_of_bind.
      apply list_elem_of_singleton in Hx. congruence.
    + rewrite decide_False by (intros ->; done). by rewrite IH.
Qed.
End TeamNamespace_ReadAll_facts.

Lemma TeamNamespace_ReadAll_access_witness :
  TeamNamespace_ReadAll Z unit (λ id, if decide (id = 5) then inr id else inl ())
    (λ n u, bool_decide (u_ID u = 1)) (mkTeamNamespace 0 0 5) bob
    (mkTeamStore [mkTeam 1 "ops"] [mkTeamNamespace 1 1 5])
  = inl (ErrNeedToHaveNamespaceReadAccess 5 2).
Proof.
  apply (proj1 (TeamNamespace_ReadAll_access Z unit
                  (λ id, if decide (id = 5) then inr id else inl ())
                  (λ n u, bool_decide (u_ID u = 1)) (mkTeamNamespace 0 0 5) bob
                  (mkTeamStore [mkTeam 1 "ops"] [mkTeamNamespace 1 1 5])) 5);
    reflexivity.
Defined.

Lemma TeamNamespace_ReadAll_teams_witness :
  ∃ all,
    TeamNamespace_ReadAll Z unit (λ id, if decide (id = 5) then inr id else inl ())
      (λ n u, bool_decide (u_ID u = 1)) (mkTeamNamespace 0 0 5) alice
      (mkTeamStore [mkTeam 1 "ops"; mkTeam 2 "dev"]
         [mkTeamNamespace 1 1 5; mkTeamNamespace 2 1 5; mkTeamNamespace 3 2 6])
    = inr all ∧
    (mkTeam 2 "dev" ∈ all ↔
     mkTeam 2 "dev" ∈ [mkTeam 1 "ops"; mkTeam 2 "dev"] ∧
     ∃ l, l ∈ [mkTeamNamespace 1 1 5; mkTeamNamespace 2 1 5; mkTeamNamespace 3 2 6] ∧
          tn_TeamID l = 2 ∧ tn_NamespaceID l = 5).
Proof.
  eexists. split; [reflexivity|].
  exact (proj1 (TeamNamespace_ReadAll_teams Z unit
                  (λ id, if decide (id = 5) then inr id else inl ())
                  (λ n u, bool_decide (u_ID u = 1)) (mkTeamNamespace 0 0 5) alice
                  (mkTeamStore [mkTeam 1 "ops"; mkTeam 2 "dev"]
                     [mkTeamNamespace 1 1 5; mkTeamNamespace 2 1 5; mkTeamNamespace 3 2 6])
                  _ eq_refl) (mkTeam 2 "dev")).
Defined.

Lemma bulk_inserts_checked_witness :
  ∃ r db' lst,
    BulkAssignees_Create (mkBulkAssignees [bob; dave] 10) (store []) = (r, db') ∧
    2 ∈ inserted 10 (written (store []) db') ∧
    List_GetSimpleByID (mkList 100 0) (store []) = inr lst ∧
    canAssign (store []) lst 2 = None.
Proof.
  do 2 eexists.
  destruct (bulk_inserts_checked (mkBulkAssignees [bob; dave] 10) (store [])
              _ _ (mkTask 10 100 []) 2 eq_refl eq_refl) as (lst & Hlst & Hcheck).
  - vm_compute. by left.
  - exists lst. split; [reflexivity|]. split; [|split; [exact Hlst | exact Hcheck]].
    vm_compute. by left.
Defined.

(** ** Repeated principals in the desired list *)

Lemma filter_filter_same (k : Z) (cur des : list Z) :
  k ∉ cur → filter (λ x, x = k) (toAdd cur des) = filter (λ x, x = k) des.
Proof.
  intros Hk. unfold toAdd. rewrite list_filter_filter.
  apply list_filter_iff. intros x. split; [tauto|]. by intros ->.
Qed.

(** The bulk replace looks up its hash map of old assignees, which is not
    extended while it adds.  A principal that is not assigned yet gets one
    row for every time the desired list names it: a successful call inserts
    as many rows for the principal as the list has entries for it. *)
Theorem bulk_replace_repeats_rows ba db db' k :
  BulkAssignees_Create ba db = (None, db') →
  k ∉ CurrentSet db (ba_TaskID ba) →
  length (filter (λ x, x = k) (inserted (ba_TaskID ba) (written db db')))
  = length (filter (λ x, x = k) (u_ID <$> ba_Assignees ba)).
Proof.
  intros Hrun Hk.
  destruct (bulk_replace_delta ba db db' Hrun) as (_ & -> & _).
  by rewrite filter_filter_same.
Qed.

Lemma bulk_replace_repeats_rows_witness :
  ∃ db',
    BulkAssignees_Create (mkBulkAssignees [bob; alice; bob] 10) (store [(10, 1)])
      = (None, db') ∧
    length (filter (λ x, x = 2) (inserted 10 (written (store [(10, 1)]) db'))) = 2%nat.
Proof.
  eexists. split; [reflexivity|].
  apply (bulk_replace_repeats_rows (mkBulkAssignees [bob; alice; bob] 10)
           (store [(10, 1)]) _ 2 eq_refl).
  vm_compute. intros H. apply list_elem_of_singleton in H. discriminate H.
Defined.
